(** * finn_api.py: the FINN.no listing scraper, embedded and verified

    The development follows src/docs/finn_api.py:
      - [Py]   the Python built-ins the client relies on (str methods,
               int(), float(), truthiness, str()/repr(), exceptions);
      - [Re]   the fragment of Python's [re] the client's patterns use,
               as a backtracking matcher;
      - the data classes and the methods of [FinnClient];
      - the properties of the extraction engine and of the search protocol.

    Strings.  A Python [str] is a sequence of code points; here it is a
    [list ascii], i.e. the code points 0..255 (Latin-1).  On that range
    [\d] is exactly 0-9, [\s] is the twelve characters listed in
    [Py.isspace], and re.IGNORECASE on ASCII letters is ASCII case folding.

    Not modelled: wall-clock rate limiting ([_rate_limit] only sleeps),
    logging, the retry adapter inside [requests] (a fetch is one call that
    returns a body or fails) and binary floating point (a float is kept as
    the decimal literal it was parsed from).  int() has the interpreter's
    default limit on the number of digits it converts from a page.  The
    same limit on str() of an int is not modelled: the integers the client
    formats are the page number and the numeric filter values of its
    caller, taken to be within it. *)

From Stdlib Require Import List String Ascii ZArith Lia Bool Arith QArith Qround DecimalString
  Permutation.
Import ListNotations.
Open Scope Z_scope.
Open Scope list_scope.
Set Warnings "-register-all".

(* ================================================================== *)
(** * Python built-ins *)
(* ================================================================== *)

Module Py.

Definition str := list ascii.

Definition chr (n : nat) : ascii := ascii_of_nat n.
Definition ord (c : ascii) : nat := nat_of_ascii c.

(** The double quote and a few characters that have no convenient literal. *)
Definition dq : ascii := chr 34.
Definition tab : ascii := chr 9.
Definition newline : ascii := chr 10.
Definition nbsp : ascii := chr 160.      (* \xa0 *)

(** [L "abc"] is the Python literal "abc". *)
Definition L (s : string) : str := list_ascii_of_string s.

(** [Q "{'id':'1'}"] is the text with every ' read as a double quote: the
    patterns and fragments of the client are full of double quotes and hold
    no single quote. *)
Definition Q (s : string) : str :=
  map (fun c => if Ascii.eqb c "'" then dq else c) (list_ascii_of_string s).

Definition len (s : str) : nat := List.length s.

Definition str_eqb (a b : str) : bool :=
  if list_eq_dec ascii_dec a b then true else false.

(** ** Exceptions and results *)

Inductive exn :=
| KeyError (key : str)
| ValueError
| TypeError
| AttributeError
| RequestException.     (* requests.RequestException and its subclasses *)

Inductive result (A : Type) :=
| Ok (a : A)
| Raise (e : exn).
Arguments Ok {A} a.
Arguments Raise {A} e.

Definition bind {A B} (m : result A) (f : A -> result B) : result B :=
  match m with
  | Ok a => f a
  | Raise e => Raise e
  end.

Definition raises {A} (m : result A) : bool :=
  match m with Ok _ => false | Raise _ => true end.

(** ** Character classes of the interpreter *)

Definition isdigit (c : ascii) : bool :=
  (48 <=? ord c)%nat && (ord c <=? 57)%nat.

(** Py_UNICODE_ISSPACE on 0..255: what [\s] and str.isspace() accept. *)
Definition isspace (c : ascii) : bool :=
  let n := ord c in
  ((9 <=? n) && (n <=? 13) || (28 <=? n) && (n <=? 32)
   || (n =? 133) || (n =? 160))%nat.

(** What int() skips around the number: Py_ISSPACE for ASCII (which leaves
    out 0x1c..0x1f) and Py_UNICODE_ISSPACE above. *)
Definition int_space (c : ascii) : bool :=
  let n := ord c in
  ((9 <=? n) && (n <=? 13) || (n =? 32) || (n =? 133) || (n =? 160))%nat.

Definition lower (c : ascii) : ascii :=
  let n := ord c in
  if ((65 <=? n) && (n <=? 90))%nat then chr (n + 32) else c.

(** ** str methods *)

(** s.replace(c, empty) for a one-character c: every c is removed. *)
Definition replace_with_empty (c : ascii) (s : str) : str :=
  filter (fun x => negb (Ascii.eqb x c)) s.

Fixpoint startswith (s p : str) : bool :=
  match p, s with
  | [], _ => true
  | a :: p', b :: s' => Ascii.eqb a b && startswith s' p'
  | _ :: _, [] => false
  end.

(** First index of [sub] in [s], counted from [pos]; None when absent. *)
Fixpoint find_from (s sub : str) (pos : nat) : option nat :=
  if startswith s sub then Some pos
  else match s with
       | [] => None
       | _ :: s' => find_from s' sub (S pos)
       end.

(** s.find(sub, start) for start >= 0: -1 when there is no occurrence. *)
Definition find (s sub : str) (start : Z) : Z :=
  let n := Z.to_nat start in
  if (len s <? n)%nat then -1
  else match find_from (skipn n s) sub n with
       | Some i => Z.of_nat i
       | None => -1
       end.

(** sub in s *)
Definition contains (s sub : str) : bool :=
  match find_from s sub 0 with Some _ => true | None => false end.

(** Index normalisation of a slice bound. *)
Definition clip (len i : Z) : nat :=
  Z.to_nat (if i <? 0 then Z.max (i + len) 0 else Z.min i len).

(** s[a:b] *)
Definition slice (s : str) (a b : Z) : str :=
  let n := Z.of_nat (len s) in
  let i := clip n a in
  let j := clip n b in
  firstn (j - i) (skipn i s).

Fixpoint lstrip (s : str) : str :=
  match s with
  | c :: s' => if isspace c then lstrip s' else s
  | [] => []
  end.

(** s.strip() *)
Definition strip (s : str) : str := rev (lstrip (rev (lstrip s))).

(** sep.join(parts) *)
Fixpoint join (sep : str) (parts : list str) : str :=
  match parts with
  | [] => []
  | [p] => p
  | p :: ps => p ++ sep ++ join sep ps
  end.

(** ** int() on a str (base 10) *)

Definition digit_val (c : ascii) : Z := Z.of_nat (ord c - 48).

(** Digits with single underscores between them, read left to right with
    accumulator [acc]; [prev] tells whether the previous character was a
    digit (an underscore must stand between two digits). *)
Fixpoint int_digits (s : str) (acc : Z) (prev : bool) : option Z :=
  match s with
  | [] => if prev then Some acc else None
  | c :: s' =>
      if isdigit c then int_digits s' (10 * acc + digit_val c) true
      else if Ascii.eqb c "_" then
             if prev then
               match s' with
               | d :: _ => if isdigit d then int_digits s' acc false else None
               | [] => None
               end
             else None
      else None
  end.

Fixpoint int_lstrip (s : str) : str :=
  match s with
  | c :: s' => if int_space c then int_lstrip s' else s
  | [] => []
  end.

Definition int_strip (s : str) : str := rev (int_lstrip (rev (int_lstrip s))).

(** sys.get_int_max_str_digits(): the most digits int() converts from a
    str; the client leaves the interpreter's default in place. *)
Definition int_max_str_digits : Z := 4300.

(** The digits the limit counts: leading zeros count, the sign, the
    underscores and the white space around the number do not. *)
Definition int_digit_count (t : str) : Z := Z.of_nat (len (filter isdigit t)).

(** int(s): ValueError unless s is an optionally signed run of digits,
    with white space allowed around it, of at most [int_max_str_digits]
    digits.  As in the interpreter the digits are counted before they are
    converted. *)
Definition int (s : str) : result Z :=
  let t := int_strip s in
  if int_digit_count t <=? int_max_str_digits then
    let r := match t with
             | c :: t' =>
                 if Ascii.eqb c "-" then option_map Z.opp (int_digits t' 0 false)
                 else if Ascii.eqb c "+" then int_digits t' 0 false
                 else int_digits t 0 false
             | [] => None
             end in
    match r with Some z => Ok z | None => Raise ValueError end
  else Raise ValueError.

(** ** Values

    What a value of type Any can be in this program: the JSON-like values.
    (Floats are left out: no claim formats or compares one.)  A dict is an
    association list in insertion order with distinct keys. *)

Inductive pyval :=
| VNone
| VBool (b : bool)
| VInt (z : Z)
| VStr (s : str)
| VList (l : list pyval)
| VDict (d : list (str * pyval)).

Definition dict := list (str * pyval).

(** d.get(k) as an option: None when the key is missing. *)
Fixpoint dict_find (d : dict) (k : str) : option pyval :=
  match d with
  | [] => None
  | (k', v) :: d' => if str_eqb k' k then Some v else dict_find d' k
  end.

(** k in d *)
Definition dict_in (k : str) (d : dict) : bool :=
  match dict_find d k with Some _ => true | None => false end.

(** d.get(k): Python's None when the key is missing. *)
Definition dict_get (d : dict) (k : str) : pyval :=
  match dict_find d k with Some v => v | None => VNone end.

(** d.get(k, default) *)
Definition dict_get_or (d : dict) (k : str) (default : pyval) : pyval :=
  match dict_find d k with Some v => v | None => default end.

(** d[k] *)
Definition dict_item (d : dict) (k : str) : result pyval :=
  match dict_find d k with Some v => Ok v | None => Raise (KeyError k) end.

(** d[k] = v: in place for a key already there, at the end otherwise. *)
Fixpoint dict_set (d : dict) (k : str) (v : pyval) : dict :=
  match d with
  | [] => [(k, v)]
  | (k', v') :: d' =>
      if str_eqb k' k then (k, v) :: d' else (k', v') :: dict_set d' k v
  end.

(** bool(v) *)
Definition truthy (v : pyval) : bool :=
  match v with
  | VNone => false
  | VBool b => b
  | VInt z => negb (z =? 0)
  | VStr s => match s with [] => false | _ => true end
  | VList l => match l with [] => false | _ => true end
  | VDict d => match d with [] => false | _ => true end
  end.

(** ** str() and repr() *)

Definition str_of_Z (z : Z) : str :=
  list_ascii_of_string (NilZero.string_of_int (Z.to_int z)).

Definition hex_digit (n : nat) : ascii :=
  if (n <? 10)%nat then chr (48 + n) else chr (87 + n).

(** str.isprintable() on one character of 0..255. *)
Definition isprintable (c : ascii) : bool :=
  let n := ord c in
  ((32 <=? n) && (n <=? 126) || (161 <=? n) && (n <=? 172)
   || (174 <=? n))%nat.

Definition repr_char (quote c : ascii) : str :=
  if Ascii.eqb c quote || Ascii.eqb c "\" then ["\"%char; c]
  else if Ascii.eqb c tab then L "\t"
  else if Ascii.eqb c newline then L "\n"
  else if Ascii.eqb c (chr 13) then L "\r"
  else if isprintable c then [c]
  else L "\x" ++ [hex_digit (ord c / 16); hex_digit (ord c mod 16)].

(** repr(s): single quotes, unless s holds a single quote and no double one. *)
Definition repr_str (s : str) : str :=
  let quote :=
    if existsb (Ascii.eqb "'") s && negb (existsb (Ascii.eqb dq) s)
    then dq else "'"%char in
  quote :: flat_map (repr_char quote) s ++ [quote].

Fixpoint repr (v : pyval) : str :=
  match v with
  | VNone => L "None"
  | VBool true => L "True"
  | VBool false => L "False"
  | VInt z => str_of_Z z
  | VStr s => repr_str s
  | VList l => L "[" ++ join (L ", ") (map repr l) ++ L "]"
  | VDict d =>
      L "{" ++ join (L ", ")
                 (map (fun kv => repr_str (fst kv) ++ L ": " ++ repr (snd kv)) d)
        ++ L "}"
  end.

(** str(v), which is what an f-string field writes. *)
Definition to_str (v : pyval) : str :=
  match v with
  | VStr s => s
  | _ => repr v
  end.

End Py.

(* ================================================================== *)
(** * The fragment of Python's [re] used by the client *)
(* ================================================================== *)

Module Re.
Import Py.

(** Character sets. *)
Inductive cls :=
| Digit                        (* \d *)
| Space                        (* \s *)
| Chars (cs : str)             (* the listed characters *)
| Range (lo hi : ascii)        (* lo-hi *)
| Not (p : cls)                (* [^...] *)
| Or (p q : cls).              (* both inside one [...] *)

Fixpoint mem (p : cls) (c : ascii) : bool :=
  match p with
  | Digit => isdigit c
  | Space => isspace c
  | Chars cs => existsb (Ascii.eqb c) cs
  | Range lo hi => (ord lo <=? ord c)%nat && (ord c <=? ord hi)%nat
  | Not q => negb (mem q c)
  | Or q1 q2 => mem q1 c || mem q2 c
  end.

(** Patterns: every repetition in the client is over one character set. *)
Inductive re :=
| Lit (l : str)                (* literal text *)
| LitI (l : str)               (* literal text under re.IGNORECASE *)
| Star (p : cls)               (* p*, greedy *)
| Plus (p : cls)               (* p+, greedy *)
| Seq (a b : re)
| Alt (a b : re)               (* a|b, left first *)
| Grp (n : nat) (a : re).      (* capturing group number n *)

Definition caps := list (nat * str).

(** The text after the literal [l] at the head of [s]; [ci] folds case. *)
Fixpoint lit (ci : bool) (l s : str) : option str :=
  match l, s with
  | [], _ => Some s
  | a :: l', b :: s' =>
      if (if ci then Ascii.eqb (lower a) (lower b) else Ascii.eqb a b)
      then lit ci l' s' else None
  | _ :: _, [] => None
  end.

Section Engine.
Context {A : Type}.

(** Greedy repetition with backtracking: take the longest run of [p]
    first, give characters back one at a time while [k] fails. *)
Fixpoint star (p : cls) (s : str) (k : str -> option A) : option A :=
  match s with
  | c :: s' =>
      if mem p c then
        match star p s' k with
        | Some a => Some a
        | None => k s
        end
      else k s
  | [] => k []
  end.

Definition plus (p : cls) (s : str) (k : str -> option A) : option A :=
  match s with
  | c :: s' => if mem p c then star p s' k else None
  | [] => None
  end.

(** [run r s g k]: match [r] at the head of [s] with the captures [g] so
    far, and hand the rest of the text to [k]; the alternatives are tried
    in the order of a backtracking matcher. *)
Fixpoint run (r : re) (s : str) (g : caps) (k : str -> caps -> option A)
  : option A :=
  match r with
  | Lit l => match lit false l s with Some s' => k s' g | None => None end
  | LitI l => match lit true l s with Some s' => k s' g | None => None end
  | Star p => star p s (fun s' => k s' g)
  | Plus p => plus p s (fun s' => k s' g)
  | Seq a b => run a s g (fun s' g' => run b s' g' k)
  | Alt a b =>
      match run a s g k with
      | Some x => Some x
      | None => run b s g k
      end
  | Grp n a =>
      run a s g (fun s' g' => k s' ((n, firstn (len s - len s') s) :: g'))
  end.
End Engine.

(** A match anchored at the head of [s]: the text left over and the groups. *)
Definition match_at (r : re) (s : str) : option (str * caps) :=
  run r s [] (fun s' g => Some (s', g)).

(** Match objects. *)
Record Match := { m_start : nat; m_end : nat; m_groups : caps }.

Fixpoint lookup (n : nat) (g : caps) : option str :=
  match g with
  | [] => None
  | (m, t) :: g' => if (m =? n)%nat then Some t else lookup n g'
  end.

(** m.group(n); every group of the client's patterns takes part in every
    match, so the None of an unset group never shows. *)
Definition group (m : Match) (n : nat) : str :=
  match lookup n (m_groups m) with Some t => t | None => [] end.

Definition mk_match (pos : nat) (s rest : str) (g : caps) : Match :=
  {| m_start := pos; m_end := pos + (len s - len rest); m_groups := g |}.

(** re.search: the leftmost position where the pattern matches. *)
Fixpoint search_from (r : re) (s : str) (pos : nat) : option Match :=
  match match_at r s with
  | Some (rest, g) => Some (mk_match pos s rest g)
  | None =>
      match s with
      | [] => None
      | _ :: s' => search_from r s' (S pos)
      end
  end.

Definition search (r : re) (s : str) : option Match := search_from r s 0.

(** re.finditer: the non-overlapping matches from left to right.  The scan
    walks the text once; after a match of length n it skips the n - 1
    characters the match still covers.  (The patterns of the client start
    with a literal, so no match is empty.) *)
Fixpoint finditer_from (r : re) (s : str) (pos skip : nat) : list Match :=
  match s with
  | [] => []
  | _ :: s' =>
      match skip with
      | S n => finditer_from r s' (S pos) n
      | O =>
          match match_at r s with
          | Some (rest, g) =>
              mk_match pos s rest g
                :: finditer_from r s' (S pos) (len s - len rest - 1)
          | None => finditer_from r s' (S pos) 0
          end
      end
  end.

Definition finditer (r : re) (s : str) : list Match := finditer_from r s 0 0.

(** re.findall for a pattern with one group: the text of group 1. *)
Definition findall (r : re) (s : str) : list str :=
  map (fun m => group m 1) (finditer r s).

Declare Scope re_scope.
Delimit Scope re_scope with re.
Bind Scope re_scope with re.
Infix "+++" := Seq (at level 60, right associativity) : re_scope.

End Re.

Import Py Re.
Open Scope re_scope.

(* ================================================================== *)
(** * Data model *)
(* ================================================================== *)

Inductive SearchType :=
| LETTINGS | HOMES | NEWBUILDINGS | PLOTS | COMMERCIAL | LEISURE.

(** search_type.value *)
Definition SearchType_value (t : SearchType) : str :=
  match t with
  | LETTINGS => L "lettings"
  | HOMES => L "homes"
  | NEWBUILDINGS => L "newbuildings"
  | PLOTS => L "plots"
  | COMMERCIAL => L "commercial"
  | LEISURE => L "leisure"
  end.

Definition SearchType_eqb (a b : SearchType) : bool :=
  match a, b with
  | LETTINGS, LETTINGS | HOMES, HOMES | NEWBUILDINGS, NEWBUILDINGS
  | PLOTS, PLOTS | COMMERCIAL, COMMERCIAL | LEISURE, LEISURE => true
  | _, _ => false
  end.

(** A float, kept as the decimal literal it was parsed from. *)
Record pyfloat := { literal : str }.

(** The data classes check no types at run time: a field filled from a raw
    record holds whatever value the record had. *)
Record Image := {
  img_url : pyval;
  img_path : pyval;
  img_width : pyval;
  img_height : pyval;
  img_aspect_ratio : pyval
}.

Record ListingBasic := {
  lb_id : pyval;
  lb_heading : pyval;
  lb_location : pyval;
  lb_search_type : str;
  lb_url : str;
  lb_image : option Image;
  lb_price : pyval;
  lb_price_total : pyval;
  lb_price_suggestion : pyval;
  lb_area : pyval;
  lb_bedrooms : pyval;
  lb_property_type : pyval;
  lb_flags : pyval;
  lb_timestamp : pyval;
  lb_labels : pyval
}.

(** ListingDetails(ListingBasic): the inherited fields first, then its own.
    Only [_parse_listing_details] builds one, so the fields carry the types
    it stores; None is the absent field. *)
Record ListingDetails := {
  ld_id : str;
  ld_heading : str;
  ld_location : str;
  ld_search_type : str;
  ld_url : str;
  ld_image : option Image;
  ld_price : option str;
  ld_price_total : option Z;
  ld_price_suggestion : option str;
  ld_area : option str;
  ld_bedrooms : option Z;
  ld_property_type : option str;
  ld_flags : list str;
  ld_timestamp : option str;
  ld_labels : list str;
  ld_description : option str;
  ld_address : option str;
  ld_postal_code : option str;
  ld_city : option str;
  ld_latitude : option pyfloat;
  ld_longitude : option pyfloat;
  ld_floor : option str;
  ld_total_floors : option Z;
  ld_year_built : option Z;
  ld_energy_label : option str;
  ld_ownership_type : option str;
  ld_facilities : list str;
  ld_contact_name : option str;
  ld_contact_phone : option str;
  ld_agency_name : option str;
  ld_images : list Image;
  ld_viewing_dates : list str;
  ld_common_costs : option Z;
  ld_deposit : option Z
}.

Record SearchResults := {
  sr_items : list ListingBasic;
  sr_total_count : Z;
  sr_page : Z;
  sr_per_page : Z;
  sr_has_next_page : bool;
  sr_search_type : str;
  sr_filters_applied : dict
}.

(* ================================================================== *)
(** * FinnClient *)
(* ================================================================== *)

Definition BASE_URL : str := L "https://www.finn.no".

Definition SEARCH_ENDPOINTS (t : SearchType) : str :=
  match t with
  | LETTINGS => L "/realestate/lettings/search.html"
  | HOMES => L "/realestate/homes/search.html"
  | NEWBUILDINGS => L "/realestate/newbuildings/search.html"
  | PLOTS => L "/realestate/plots/search.html"
  | COMMERCIAL => L "/realestate/commercial/search.html"
  | LEISURE => L "/realestate/leisuresale/search.html"
  end.

(** ** _extract_listings *)

Definition not_quote : cls := Not (Chars [dq]).

(** The anchor, written here with ' for the double quote:
    \{'type':'realestate','id':'(\d+)','main_search_key':'([^']+)',
    'heading':'([^']+)','location':'([^']* )'
    (a blank before a closing parenthesis is not part of the pattern) *)
Definition listing_pattern : re :=
  Lit (Q "{'type':'realestate','id':'") +++ Grp 1 (Plus Digit)
  +++ Lit (Q "','main_search_key':'") +++ Grp 2 (Plus not_quote)
  +++ Lit (Q "','heading':'") +++ Grp 3 (Plus not_quote)
  +++ Lit (Q "','location':'") +++ Grp 4 (Star not_quote)
  +++ Lit (Q "'").

Definition not_brace : cls := Not (Chars (L "}")).

(** 'image':\{'url':'([^']+)'[^}]*'path':'([^']* )'[^}]*'height':(\d+)
    [^}]*'width':(\d+) *)
Definition image_pattern : re :=
  Lit (Q "'image':{'url':'") +++ Grp 1 (Plus not_quote) +++ Lit (Q "'")
  +++ Star not_brace +++ Lit (Q "'path':'") +++ Grp 2 (Star not_quote)
  +++ Lit (Q "'") +++ Star not_brace +++ Lit (Q "'height':")
  +++ Grp 3 (Plus Digit) +++ Star not_brace +++ Lit (Q "'width':")
  +++ Grp 4 (Plus Digit).

(** 'flags':\[([^\]]* )\] *)
Definition flags_pattern : re :=
  Lit (Q "'flags':[") +++ Grp 1 (Star (Not (Chars (L "]")))) +++ Lit (L "]").

(** '([^']+)' *)
Definition flag_pattern : re :=
  Lit [dq] +++ Grp 1 (Plus not_quote) +++ Lit [dq].

(** The body of the loop after the duplicate test: the record of one anchor
    match, with the image and the flags found in its window. *)
Definition listing_of_match (html : str) (m : Match) : result dict :=
  let listing_id := group m 1 in
  let listing : dict :=
    [ (L "id", VStr listing_id);
      (L "main_search_key", VStr (group m 2));
      (L "heading", VStr (group m 3));
      (L "location", VStr (group m 4)) ] in
  let start_pos := Z.of_nat (m_start m) in
  let end_marker := find html (Q "{'type':'realestate'") (start_pos + 10) in
  let end_marker := if end_marker =? -1 then start_pos + 2000 else end_marker in
  let listing_chunk := slice html start_pos end_marker in
  bind
    (match search image_pattern listing_chunk with
     | Some image_match =>
         bind (int (group image_match 3)) (fun height =>
         bind (int (group image_match 4)) (fun width =>
         Ok (dict_set listing (L "image")
               (VDict [ (L "url", VStr (group image_match 1));
                        (L "path", VStr (group image_match 2));
                        (L "height", VInt height);
                        (L "width", VInt width) ]))))
     | None => Ok listing
     end)
    (fun listing =>
       match search flags_pattern listing_chunk with
       | Some flags_match =>
           let flags_str := group flags_match 1 in
           Ok (dict_set listing (L "flags")
                 (VList (map VStr (findall flag_pattern flags_str))))
       | None => Ok (dict_set listing (L "flags") (VList []))
       end).

(** The for loop over the anchor matches: [seen_ids] is the set of the
    identifiers met so far, [listings] the list being appended to. *)
Fixpoint extract_loop (html : str) (ms : list Match)
    (seen_ids : list str) (listings : list dict) : result (list dict) :=
  match ms with
  | [] => Ok listings
  | m :: ms' =>
      let listing_id := group m 1 in
      if existsb (str_eqb listing_id) seen_ids
      then extract_loop html ms' seen_ids listings             (* continue *)
      else
        bind (listing_of_match html m) (fun listing =>
        extract_loop html ms' (listing_id :: seen_ids) (listings ++ [listing]))
  end.

Definition _extract_listings (html : str) : result (list dict) :=
  extract_loop html (finditer listing_pattern html) [] [].

(** ** _extract_total_count *)

(** Du finner (\d+[\s\d]* ) *)
Definition count_pattern : re :=
  Lit (L "Du finner ") +++ Grp 1 (Plus Digit +++ Star (Or Space Digit)).

(** (\d+)\s*(?:treff|boliger|leieobjekter), re.IGNORECASE *)
Definition count_pattern_alt : re :=
  Grp 1 (Plus Digit) +++ Star Space
  +++ Alt (LitI (L "treff")) (Alt (LitI (L "boliger")) (LitI (L "leieobjekter"))).

Definition _extract_total_count (html : str) : result Z :=
  match search count_pattern html with
  | Some m =>
      let count_str :=
        replace_with_empty nbsp (replace_with_empty " " (group m 1)) in
      int count_str
  | None =>
      match search count_pattern_alt html with
      | Some m => int (group m 1)
      | None => Ok 0
      end
  end.

(** ** _parse_listing *)

(** v.get(k) and v.get(k, default) on a value: only a dict has the method. *)
Definition val_get (v : pyval) (k : str) (default : pyval) : result pyval :=
  match v with
  | VDict d => Ok (dict_get_or d k default)
  | _ => Raise AttributeError
  end.

(** The ad page of a listing:
    BASE_URL/realestate/<search_type.value>/ad.html?finnkode=<id> *)
Definition ad_url (search_type : SearchType) (id : str) : str :=
  BASE_URL ++ L "/realestate/" ++ SearchType_value search_type
  ++ L "/ad.html?finnkode=" ++ id.

Definition _parse_listing (data : dict) (search_type : SearchType)
  : result ListingBasic :=
  bind
    (if dict_in (L "image") data then
       bind (dict_item data (L "image")) (fun img_data =>
       bind (val_get img_data (L "url") (VStr [])) (fun url =>
       bind (val_get img_data (L "path") VNone) (fun path =>
       bind (val_get img_data (L "width") VNone) (fun width =>
       bind (val_get img_data (L "height") VNone) (fun height =>
       bind (val_get img_data (L "aspect_ratio") VNone) (fun aspect_ratio =>
       Ok (Some {| img_url := url; img_path := path; img_width := width;
                   img_height := height;
                   img_aspect_ratio := aspect_ratio |})))))))
     else Ok None)
    (fun image =>
  bind (dict_item data (L "id")) (fun id_for_url =>
  let listing_url := ad_url search_type (to_str id_for_url) in
  bind (dict_item data (L "id")) (fun id =>
  Ok {| lb_id := id;
        lb_heading := dict_get_or data (L "heading") (VStr []);
        lb_location := dict_get_or data (L "location") (VStr []);
        lb_search_type := SearchType_value search_type;
        lb_url := listing_url;
        lb_image := image;
        lb_price := dict_get data (L "price");
        lb_price_total := dict_get data (L "price_total");
        lb_price_suggestion := dict_get data (L "price_suggestion");
        lb_area := dict_get data (L "area");
        lb_bedrooms := dict_get data (L "bedrooms");
        lb_property_type := dict_get data (L "property_type");
        lb_flags := dict_get_or data (L "flags") (VList []);
        lb_timestamp := dict_get data (L "timestamp");
        lb_labels := dict_get_or data (L "labels") (VList []) |}))).

(** ** _build_search_url *)

(** if filters.get(key): params[key] = filters[key] *)
Definition copy_if_set (filters : dict) (key : str) (params : dict) : dict :=
  if truthy (dict_get filters key)
  then dict_set params key (dict_get filters key)
  else params.

(** The location filter is copied when it is a str or a list. *)
Definition copy_location (filters params : dict) : dict :=
  if truthy (dict_get filters (L "location")) then
    match dict_get filters (L "location") with
    | VStr loc => dict_set params (L "location") (VStr loc)
    | VList loc => dict_set params (L "location") (VList loc)
    | _ => params
    end
  else params.

(** key=value, once per element for a list value *)
Definition param_items (kv : str * pyval) : list str :=
  match snd kv with
  | VList l => map (fun v => fst kv ++ L "=" ++ to_str v) l
  | value => [fst kv ++ L "=" ++ to_str value]
  end.

Definition build_params (search_type : SearchType) (page : Z) (filters : dict)
  : dict :=
  let params : dict := [] in
  let params := if page >? 1 then dict_set params (L "page") (VInt page)
                else params in
  let params := copy_location filters params in
  let params := copy_if_set filters (L "price_from") params in
  let params := copy_if_set filters (L "price_to") params in
  let params := copy_if_set filters (L "area_from") params in
  let params := copy_if_set filters (L "area_to") params in
  let params := copy_if_set filters (L "no_of_bedrooms_from") params in
  let params := copy_if_set filters (L "no_of_bedrooms_to") params in
  let params := copy_if_set filters (L "property_type") params in
  let params := copy_if_set filters (L "sort") params in
  let params := copy_if_set filters (L "published") params in
  let params :=
    if SearchType_eqb search_type LETTINGS then
      copy_if_set filters (L "rent_to")
        (copy_if_set filters (L "rent_from") params)
    else params in
  copy_if_set filters (L "q") params.

(** The list [param_list] the loop over params.items() builds. *)
Definition param_list (params : dict) : list str :=
  flat_map param_items params.

Definition _build_search_url (search_type : SearchType) (page : Z)
    (filters : dict) : str :=
  let base_path := SEARCH_ENDPOINTS search_type in
  let params := build_params search_type page filters in
  let url := BASE_URL ++ base_path in
  match params with
  | [] => url
  | _ => url ++ L "?" ++ join (L "&") (param_list params)
  end.

(** ** _parse_listing_details *)

(** \s*:\s* between a key and its value *)
Definition colon : re := Star Space +++ Lit (L ":") +++ Star Space.

(** <h1[^>]*>([^<]+)</h1> *)
Definition heading_pattern : re :=
  Lit (L "<h1") +++ Star (Not (Chars (L ">"))) +++ Lit (L ">")
  +++ Grp 1 (Plus (Not (Chars (L "<")))) +++ Lit (L "</h1>").

(** 'streetAddress'\s*:\s*'([^']+)' and its like *)
Definition quoted_field (key : string) : re :=
  Lit (dq :: L key ++ [dq]) +++ colon +++ Lit [dq]
  +++ Grp 1 (Plus not_quote) +++ Lit [dq].

(** 'postalCode'\s*:\s*'(\d+)' *)
Definition postal_pattern : re :=
  Lit (Q "'postalCode'") +++ colon +++ Lit [dq]
  +++ Grp 1 (Plus Digit) +++ Lit [dq].

(** 'latitude'\s*:\s*([0-9.]+) and the same for longitude *)
Definition coordinate_pattern (key : string) : re :=
  Lit (dq :: L key ++ [dq]) +++ colon
  +++ Grp 1 (Plus (Or (Range "0" "9") (Chars (L ".")))).

(** 'price'\s*:\s*(\d+) *)
Definition price_pattern : re :=
  Lit (Q "'price'") +++ colon +++ Grp 1 (Plus Digit).

(** 'image'\s*:\s*'(https://images\.finncdn\.no[^']+)' *)
Definition gallery_pattern : re :=
  Lit (Q "'image'") +++ colon +++ Lit [dq]
  +++ Grp 1 (Lit (L "https://images.finncdn.no") +++ Plus not_quote)
  +++ Lit [dq].

(** float(t) for a text t made of the characters 0-9 and '.', which is all
    the coordinate patterns capture: a ValueError unless t has a digit and at
    most one point. *)
Definition float (t : str) : result pyfloat :=
  if existsb isdigit t
     && (len (filter (Ascii.eqb ".") t) <=? 1)%nat
  then Ok {| literal := t |}
  else Raise ValueError.

(** Image(url=u) *)
Definition Image_of_url (u : str) : Image :=
  {| img_url := VStr u; img_path := VNone; img_width := VNone;
     img_height := VNone; img_aspect_ratio := VNone |}.

(** The local dict [details]: its keys are fixed by the code, so it is a
    record with one optional entry per key (None: the key was never set).
    No entry is ever bound to Python's None, so the final filter
    [if v is not None] keeps every entry. *)
Record details_dict := {
  d_id : option str;
  d_search_type : option str;
  d_heading : option str;
  d_address : option str;
  d_postal_code : option str;
  d_city : option str;
  d_latitude : option pyfloat;
  d_longitude : option pyfloat;
  d_price_total : option Z;
  d_description : option str;
  d_images : option (list Image);
  d_location : option str;
  d_url : option str
}.

(** ListingDetails( **kwargs ): the five fields without a default (id,
    heading, location, search_type, url) are required, and a call that lacks
    one is a TypeError; every other field falls back to its default. *)
Definition ListingDetails_init (kw : details_dict) : result ListingDetails :=
  match d_id kw, d_heading kw, d_location kw, d_search_type kw, d_url kw with
  | Some id, Some heading, Some location, Some search_type, Some url =>
      Ok {| ld_id := id; ld_heading := heading; ld_location := location;
            ld_search_type := search_type; ld_url := url;
            ld_image := None; ld_price := None;
            ld_price_total := d_price_total kw;
            ld_price_suggestion := None; ld_area := None;
            ld_bedrooms := None; ld_property_type := None;
            ld_flags := []; ld_timestamp := None; ld_labels := [];
            ld_description := d_description kw;
            ld_address := d_address kw;
            ld_postal_code := d_postal_code kw;
            ld_city := d_city kw;
            ld_latitude := d_latitude kw;
            ld_longitude := d_longitude kw;
            ld_floor := None; ld_total_floors := None;
            ld_year_built := None; ld_energy_label := None;
            ld_ownership_type := None; ld_facilities := [];
            ld_contact_name := None; ld_contact_phone := None;
            ld_agency_name := None;
            ld_images := match d_images kw with Some l => l | None => [] end;
            ld_viewing_dates := []; ld_common_costs := None;
            ld_deposit := None |}
  | _, _, _, _, _ => Raise TypeError
  end.

(** group 1 of the first match, when there is one *)
Definition search_group (r : re) (html : str) : option str :=
  option_map (fun m => group m 1) (search r html).

(** f(x) when x is there; an exception of f is an exception of the whole *)
Definition convert {A B} (f : A -> result B) (x : option A)
  : result (option B) :=
  match x with
  | Some a => bind (f a) (fun b => Ok (Some b))
  | None => Ok None
  end.

(** details.get(key), as the location string uses it: a set, non-empty str *)
Definition nonempty (x : option str) : list str :=
  match x with
  | Some (c :: t) => [c :: t]
  | _ => []
  end.

Definition _parse_listing_details (html listing_id : str)
    (search_type : SearchType) : result ListingDetails :=
  let heading := option_map strip (search_group heading_pattern html) in
  let address := search_group (quoted_field "streetAddress") html in
  let postal_code := search_group postal_pattern html in
  let city := search_group (quoted_field "addressLocality") html in
  let lat_match := search_group (coordinate_pattern "latitude") html in
  let lng_match := search_group (coordinate_pattern "longitude") html in
  bind (convert float lat_match) (fun latitude =>
  bind (convert float lng_match) (fun longitude =>
  bind (convert int (search_group price_pattern html)) (fun price_total =>
  let description := search_group (quoted_field "description") html in
  let images := map Image_of_url (findall gallery_pattern html) in
  let location_parts := nonempty address ++ nonempty postal_code ++ nonempty city in
  ListingDetails_init
    {| d_id := Some listing_id;
       d_search_type := Some (SearchType_value search_type);
       d_heading := heading;
       d_address := address;
       d_postal_code := postal_code;
       d_city := city;
       d_latitude := latitude;
       d_longitude := longitude;
       d_price_total := price_total;
       d_description := description;
       d_images := Some images;
       d_location := Some (join (L ", ") location_parts);
       d_url := Some (ad_url search_type listing_id) |}))).

(** ** The methods that fetch *)

Section Client.

(** The outside world (the site and the clock) and one fetch through the
    session: [session.get] followed by [raise_for_status], behind the rate
    limiter.  It gives the body of the response or raises. *)
Variable World : Type.
Variable fetch : World -> str -> result str * World.

Definition _make_request (url : str) (w : World) : result str * World :=
  fetch w url.

(** [f(x) for x in xs] *)
Fixpoint comprehension {A B} (f : A -> result B) (xs : list A)
  : result (list B) :=
  match xs with
  | [] => Ok []
  | x :: xs' =>
      bind (f x) (fun y =>
      bind (comprehension f xs') (fun ys => Ok (y :: ys)))
  end.

Definition per_page : Z := 51.

Definition search (search_type : SearchType) (page : Z) (filters : dict)
    (w : World) : result SearchResults * World :=
  let url := _build_search_url search_type page filters in
  let (response, w') := _make_request url w in
  (bind response (fun html =>
   bind (_extract_listings html) (fun listings_data =>
   bind (_extract_total_count html) (fun total_count =>
   bind (comprehension (fun data => _parse_listing data search_type)
           listings_data) (fun listings =>
   let total_pages :=
     if total_count >? 0 then (total_count + per_page - 1) / per_page
     else 0 in
   Ok {| sr_items := listings;
         sr_total_count := total_count;
         sr_page := page;
         sr_per_page := per_page;
         sr_has_next_page := page <? total_pages;
         sr_search_type := SearchType_value search_type;
         sr_filters_applied := filters |})))),
   w').

(** *** search_all_pages

    The generator, as the states it can be suspended in and the step it
    takes when it is resumed.  A step runs up to the next thing that can be
    seen from outside: a call of [search], a yielded listing, or the end. *)

Inductive gen_state :=
| GStart                       (* created: the loop starts with page = 1 *)
| GItems (page : Z) (has_next_page : bool) (rest : list ListingBasic)
                               (* inside the for loop over results.items *)
| GDone.                       (* returned, or left by an exception *)

Inductive gen_event :=
| ESearched (page : Z) (results : SearchResults)   (* search returned *)
| ESearchRaised (page : Z) (e : exn)               (* search raised *)
| EYield (listing : ListingBasic)
| EStop.                                           (* StopIteration *)

(** if max_pages and page >= max_pages *)
Definition page_limit_reached (max_pages : option Z) (page : Z) : bool :=
  match max_pages with
  | Some n => negb (n =? 0) && (page >=? n)
  | None => false
  end.

(** [filters] are the keyword arguments a caller adds to [search_type] and
    [max_pages], under names other than page: the generator passes page
    itself, and a call with a filter of that name ends in Python with a
    TypeError at the first self.search, before anything is fetched.  Such a
    call is not a run of this machine. *)
Section Traversal.
Variable search_type : SearchType.
Variable max_pages : option Z.
Variable filters : dict.

Definition gen_search (page : Z) (w : World)
  : gen_event * gen_state * World :=
  match search search_type page filters w with
  | (Ok results, w') =>
      (ESearched page results,
       GItems page (sr_has_next_page results) (sr_items results), w')
  | (Raise e, w') => (ESearchRaised page e, GDone, w')
  end.

Definition gen_step (g : gen_state) (w : World)
  : gen_event * gen_state * World :=
  match g with
  | GStart => gen_search 1 w
  | GItems page has_next_page (listing :: rest) =>
      (EYield listing, GItems page has_next_page rest, w)
  | GItems page has_next_page [] =>
      if negb has_next_page then (EStop, GDone, w)
      else if page_limit_reached max_pages page then (EStop, GDone, w)
      else gen_search (page + 1) w
  | GDone => (EStop, GDone, w)
  end.

(** The first [n] steps of the generator, driven without a pause. *)
Fixpoint gen_run (n : nat) (g : gen_state) (w : World)
  : list gen_event * gen_state * World :=
  match n with
  | O => ([], g, w)
  | S n' =>
      match g with
      | GDone => ([], g, w)
      | _ =>
          let '(e, g', w') := gen_step g w in
          let '(es, g'', w'') := gen_run n' g' w' in
          (e :: es, g'', w'')
      end
  end.

Definition search_all_pages (n : nat) (w : World) :=
  gen_run n GStart w.
End Traversal.

(** What a run leaves behind: its events and the state it stopped in. *)
Definition events_of (r : list gen_event * gen_state * World)
  : list gen_event := fst (fst r).
Definition state_of (r : list gen_event * gen_state * World)
  : gen_state := snd (fst r).

(** The pages [search] was called for, in order. *)
Definition is_search (e : gen_event) : option Z :=
  match e with
  | ESearched page _ | ESearchRaised page _ => Some page
  | _ => None
  end.

Fixpoint searched_pages (es : list gen_event) : list Z :=
  match es with
  | [] => []
  | e :: es' =>
      match is_search e with
      | Some p => p :: searched_pages es'
      | None => searched_pages es'
      end
  end.

Fixpoint yielded (es : list gen_event) : list ListingBasic :=
  match es with
  | [] => []
  | EYield l :: es' => l :: yielded es'
  | _ :: es' => yielded es'
  end.

(** *** get_listing_details *)

Fixpoint details_loop (listing_id : str) (candidates : list SearchType)
    (w : World) : result (option ListingDetails) * World :=
  match candidates with
  | [] => (Ok None, w)                           (* not found *)
  | search_type :: rest =>
      let url := ad_url search_type listing_id in
      match _make_request url w with
      | (Ok html, w') =>
          if negb (contains html (L "finnkode=" ++ listing_id))
             && negb (contains html listing_id)
          then details_loop listing_id rest w'             (* continue *)
          else
            (bind (_parse_listing_details html listing_id search_type)
               (fun d => Ok (Some d)), w')
      | (Raise RequestException, w') =>
          details_loop listing_id rest w'  (* except RequestException *)
      | (Raise e, w') => (Raise e, w')
      end
  end.

Definition get_listing_details (listing_id : str) (w : World)
  : result (option ListingDetails) * World :=
  details_loop listing_id [LETTINGS; HOMES; LEISURE] w.

End Client.

Arguments events_of {World} r.
Arguments state_of {World} r.

(** ** listing_to_dict

    For a ListingBasic argument (the isinstance test for ListingDetails is
    false on it).  [asdict] gives the fields in the order of the class, a
    nested data class as a dict; an instance of a data class is truthy. *)




(** ** A scripted site, for concrete runs

    The world is the list of the responses still to come; each fetch takes
    the next one, and a site with nothing left to say fails. *)

Definition script := list (result str).

Definition scripted_fetch (w : script) (url : str) : result str * script :=
  match w with
  | response :: w' => (response, w')
  | [] => (Raise RequestException, [])
  end.

(** ** Percent-encoding, as the specification asks of the keyword text

    This follows the words of the specification, not the code: RFC 3986
    keeps the unreserved characters (letters, digits, - . _ ~) and writes
    every other byte of the UTF-8 form as %XX. *)







(* ================================================================== *)
(** * Notions the properties are stated with *)
(* ================================================================== *)

(** [matches r t g g']: the pattern [r] can match exactly the text [t],
    taking the captures from [g] to [g']. *)
Inductive matches : re -> str -> caps -> caps -> Prop :=
| M_Lit l g : matches (Lit l) l g g
| M_LitI l t g : map lower l = map lower t -> matches (LitI l) t g g
| M_Star p t g : forallb (mem p) t = true -> matches (Star p) t g g
| M_Plus p t g :
    t <> [] -> forallb (mem p) t = true -> matches (Plus p) t g g
| M_Seq a b t1 t2 g g1 g2 :
    matches a t1 g g1 -> matches b t2 g1 g2 ->
    matches (Seq a b) (t1 ++ t2) g g2
| M_AltL a b t g g' : matches a t g g' -> matches (Alt a b) t g g'
| M_AltR a b t g g' : matches b t g g' -> matches (Alt a b) t g g'
| M_Grp n a t g g' : matches a t g g' -> matches (Grp n a) t g ((n, t) :: g').

(** A match found by [search] or [finditer] is a match of the pattern on
    some piece of the text. *)
Definition match_of (r : re) (m : Match) : Prop :=
  exists t, matches r t [] (m_groups m).

(** The first character of a text is outside a set (or there is none). *)
Definition stops (p : cls) (s : str) : bool :=
  match s with
  | c :: _ => negb (mem p c)
  | [] => true
  end.

(** The pattern matches at the head of a text exactly when the text starts
    with [Du finner ] and a digit. *)
Definition starts_count (s : str) : bool :=
  match lit false (L "Du finner ") s with
  | Some (d :: _) => isdigit d
  | _ => false
  end.

(** The pages p+1, ..., p+j. *)
Definition pages_after (p : Z) (j : nat) : list Z :=
  map (fun i => p + Z.of_nat i) (seq 1 j).

(** The identifiers of a list in the order of their first occurrence: this
    is the statement of the specification, not the loop of the code. *)
Fixpoint first_occurrences (ids : list str) : list str :=
  match ids with
  | [] => []
  | x :: ids' =>
      x :: filter (fun y => negb (str_eqb y x)) (first_occurrences ids')
  end.

Section FirstByKey.
Context {A : Type} (key : A -> str).

Definition other_than (x : str) (a : A) : bool := negb (str_eqb (key a) x).

(** The elements whose key is met for the first time. *)
Fixpoint first_by_key (l : list A) : list A :=
  match l with
  | [] => []
  | a :: l' => a :: filter (other_than (key a)) (first_by_key l')
  end.

(** The elements whose key is not among [seen]. *)
Definition unseen (seen : list str) (l : list A) : list A :=
  filter (fun a => negb (existsb (str_eqb (key a)) seen)) l.
End FirstByKey.

(** The identifier of an anchor match. *)
Definition match_id (m : Match) : str := group m 1.

(** The identifier of a raw record. *)
Definition record_id (d : dict) : option pyval := dict_find d (L "id").

(** A listing fragment as the page serializes it. *)
Definition fragment (id key heading location : str) : str :=
  Q "{'type':'realestate','id':'" ++ id
  ++ Q "','main_search_key':'" ++ key
  ++ Q "','heading':'" ++ heading
  ++ Q "','location':'" ++ location ++ Q "'".

(** The entry a truthy filter leaves in [params], and nothing otherwise. *)
Definition entry (filters : dict) (k : str) : dict :=
  if truthy (dict_get filters k) then [(k, dict_get filters k)] else [].

Definition page_entry (page : Z) : dict :=
  if page >? 1 then [(L "page", VInt page)] else [].

Definition location_entry (filters : dict) : dict :=
  if truthy (dict_get filters (L "location")) then
    match dict_get filters (L "location") with
    | VStr loc => [(L "location", VStr loc)]
    | VList loc => [(L "location", VList loc)]
    | _ => []
    end
  else [].

(** The characters the Du finner group may hold and the code strips or
    parses: digits, blanks and non-breaking spaces. *)
Definition count_char (c : ascii) : bool :=
  isdigit c || Ascii.eqb c " " || Ascii.eqb c nbsp.

(** The ESearched results of a run, in order. *)
Fixpoint searched_results (es : list gen_event) : list SearchResults :=
  match es with
  | [] => []
  | ESearched _ r :: es' => r :: searched_results es'
  | _ :: es' => searched_results es'
  end.

(** The text with which every anchor starts, and which [_extract_listings]
    looks for to close the window of a match. *)
Definition anchor_prefix : str := Q "{'type':'realestate'".

(** The filter names [_build_search_url] reads. *)
Definition filter_keys : list str :=
  [ L "location"; L "price_from"; L "price_to"; L "area_from"; L "area_to";
    L "no_of_bedrooms_from"; L "no_of_bedrooms_to"; L "property_type";
    L "sort"; L "published"; L "rent_from"; L "rent_to"; L "q" ].

(** What a raw record of the extractor looks like. *)
Definition record_shape (d : dict) : Prop :=
  exists id key heading location flags,
    (dict_find d (L "id") = Some (VStr id)
     /\ id <> [] /\ forallb isdigit id = true)
    /\ (dict_find d (L "main_search_key") = Some (VStr key) /\ key <> [])
    /\ (dict_find d (L "heading") = Some (VStr heading) /\ heading <> [])
    /\ dict_find d (L "location") = Some (VStr location)
    /\ (dict_find d (L "flags") = Some (VList (map VStr flags))
        /\ Forall (fun f => f <> []) flags)
    /\ (dict_find d (L "image") = None
        \/ exists url path height width,
             dict_find d (L "image")
             = Some (VDict [ (L "url", VStr url); (L "path", VStr path);
                             (L "height", VInt height);
                             (L "width", VInt width) ])
             /\ url <> [] /\ 0 <= height /\ 0 <= width).

(** The keys [_parse_listing] reads in a raw record. *)
Definition parse_keys : list str :=
  [ L "image"; L "id"; L "heading"; L "location"; L "price";
    L "price_total"; L "price_suggestion"; L "area"; L "bedrooms";
    L "property_type"; L "flags"; L "timestamp"; L "labels" ].


(** The listings a suspended generator still holds. *)
Definition pending (g : gen_state) : list ListingBasic :=
  match g with
  | GItems _ _ rest => rest
  | _ => []
  end.

(** The unit words of the second count pattern. *)
Definition unit_words : list str :=
  [ L "treff"; L "boliger"; L "leieobjekter" ].

(** A run of digits int() converts: one within the digit limit. *)
Definition within_int_limit (t : str) : bool :=
  Z.of_nat (len t) <=? int_max_str_digits.

(** The window of an anchor match: the text [listing_of_match] searches for
    the image and the flags. *)
Definition listing_chunk (html : str) (m : Match) : str :=
  let start_pos := Z.of_nat (m_start m) in
  let end_marker := find html (Q "{'type':'realestate'") (start_pos + 10) in
  let end_marker := if end_marker =? -1 then start_pos + 2000 else end_marker in
  slice html start_pos end_marker.

(** The image found in the window of a match, if there is one, has a height
    and a width within the digit limit of int(). *)
Definition image_size_fits (html : str) (m : Match) : bool :=
  match Re.search image_pattern (listing_chunk html m) with
  | Some im => within_int_limit (group im 3) && within_int_limit (group im 4)
  | None => true
  end.

(** The number of digits a text starts with. *)
Fixpoint digit_prefix_len (s : str) : nat :=
  match s with
  | c :: s' => if isdigit c then S (digit_prefix_len s') else 0
  | [] => 0
  end.

(** The length of the longest run of digits in a text. *)
Fixpoint longest_digit_run (s : str) : nat :=
  match s with
  | [] => 0
  | c :: s' => Nat.max (digit_prefix_len (c :: s')) (longest_digit_run s')
  end.

(** No run of digits of the page is beyond the digit limit of int(). *)
Definition digit_runs_fit (html : str) : Prop :=
  Z.of_nat (longest_digit_run html) <= int_max_str_digits.

(* ================================================================== *)
(** * Proof tools *)
(* ================================================================== *)

Ltac inv_matches :=
  repeat match goal with
         | H : matches (Seq _ _) _ _ _ |- _ => inversion H; subst; clear H
         | H : matches (Grp _ _) _ _ _ |- _ => inversion H; subst; clear H
         | H : matches (Lit _) _ _ _ |- _ => inversion H; subst; clear H
         | H : matches (LitI _) _ _ _ |- _ => inversion H; subst; clear H
         | H : matches (Star _) _ _ _ |- _ => inversion H; subst; clear H
         | H : matches (Plus _) _ _ _ |- _ => inversion H; subst; clear H
         | H : matches (Alt _ _) _ _ _ |- _ => inversion H; subst; clear H
         end.

(** Case analysis on the comparisons of a literal with the unknown
    characters of a text. *)
Ltac eqb_cases :=
  repeat (cbn [lit app];
          match goal with
          | |- context [Ascii.eqb ?a ?b] =>
              is_var b; destruct (Ascii.eqb a b); try reflexivity
          end).

Ltac ascii_cases c :=
  destruct c as [[|] [|] [|] [|] [|] [|] [|] [|]].

(* ================================================================== *)
(** * What a pattern matches *)
(* ================================================================== *)

Lemma lit_sound ci l s s' :
  lit ci l s = Some s' ->
  exists t, s = t ++ s' /\
            (if ci then map lower l = map lower t else l = t).
Proof.
  revert s. induction l as [|a l IH]; intros s H; simpl in H.
  - inversion H; subst. exists []. destruct ci; auto.
  - destruct s as [|b s]; [discriminate|].
    destruct ci.
    + destruct (Ascii.eqb_spec (lower a) (lower b)) as [E|]; [|discriminate].
      destruct (IH _ H) as (t & -> & Ht). exists (b :: t). split; auto.
      simpl. now rewrite E, Ht.
    + destruct (Ascii.eqb_spec a b) as [E|]; [|discriminate].
      destruct (IH _ H) as (t & -> & Ht). exists (b :: t). split; auto.
      now subst.
Qed.

Lemma star_sound {A} p s (k : str -> option A) x :
  star p s k = Some x ->
  exists t s', s = t ++ s' /\ forallb (mem p) t = true /\ k s' = Some x.
Proof.
  induction s as [|c s IH]; simpl; intros H.
  - exists [], []. auto.
  - destruct (mem p c) eqn:Hc.
    + destruct (star p s k) eqn:Hs.
      * inversion H; subst.
        destruct (IH eq_refl) as (t & s' & -> & Ht & Hk).
        exists (c :: t), s'. simpl. rewrite Hc. auto.
      * exists [], (c :: s). auto.
    + exists [], (c :: s). auto.
Qed.

Lemma plus_sound {A} p s (k : str -> option A) x :
  plus p s k = Some x ->
  exists t s', s = t ++ s' /\ t <> [] /\ forallb (mem p) t = true
               /\ k s' = Some x.
Proof.
  destruct s as [|c s]; simpl; [discriminate|].
  destruct (mem p c) eqn:Hc; [|discriminate]. intros H.
  destruct (star_sound _ _ _ _ H) as (t & s' & -> & Ht & Hk).
  exists (c :: t), s'. simpl. rewrite Hc. repeat split; auto. discriminate.
Qed.

Lemma firstn_consumed (t s' : str) : firstn (len (t ++ s') - len s') (t ++ s') = t.
Proof.
  unfold len. rewrite length_app.
  replace (List.length t + List.length s' - List.length s')%nat
    with (List.length t + 0)%nat by lia.
  rewrite firstn_app_2. simpl. apply app_nil_r.
Qed.

(** The matcher only answers through a declarative match. *)
Lemma run_sound {A} r : forall s g (k : str -> caps -> option A) x,
  run r s g k = Some x ->
  exists t s' g', s = t ++ s' /\ matches r t g g' /\ k s' g' = Some x.
Proof.
  induction r as [l|l|p|p|a IHa b IHb|a IHa b IHb|n a IHa];
    intros s g k x H; simpl in H.
  - destruct (lit false l s) as [s'|] eqn:E; [|discriminate].
    destruct (lit_sound _ _ _ _ E) as (t & -> & <-).
    exists l, s', g. repeat split; auto. constructor.
  - destruct (lit true l s) as [s'|] eqn:E; [|discriminate].
    destruct (lit_sound _ _ _ _ E) as (t & -> & Ht).
    exists t, s', g. repeat split; auto. now constructor.
  - destruct (star_sound _ _ _ _ H) as (t & s' & -> & Ht & Hk).
    exists t, s', g. repeat split; auto. now constructor.
  - destruct (plus_sound _ _ _ _ H) as (t & s' & -> & Hne & Ht & Hk).
    exists t, s', g. repeat split; auto. now constructor.
  - destruct (IHa _ _ _ _ H) as (t1 & s1 & g1 & -> & M1 & H1).
    destruct (IHb _ _ _ _ H1) as (t2 & s2 & g2 & -> & M2 & H2).
    exists (t1 ++ t2), s2, g2. rewrite <- app_assoc. repeat split; auto.
    econstructor; eauto.
  - destruct (run a s g k) eqn:E.
    + inversion H; subst. destruct (IHa _ _ _ _ E) as (t & s' & g' & -> & M & Hk).
      exists t, s', g'. repeat split; auto. now apply M_AltL.
    + destruct (IHb _ _ _ _ H) as (t & s' & g' & -> & M & Hk).
      exists t, s', g'. repeat split; auto. now apply M_AltR.
  - destruct (IHa _ _ _ _ H) as (t & s' & g' & -> & M & Hk).
    rewrite firstn_consumed in Hk.
    exists t, s', ((n, t) :: g'). repeat split; auto. now constructor.
Qed.

Lemma match_at_sound r s rest g :
  match_at r s = Some (rest, g) ->
  exists t, s = t ++ rest /\ matches r t [] g.
Proof.
  unfold match_at. intros H.
  destruct (run_sound _ _ _ _ _ H) as (t & s' & g' & -> & M & E).
  inversion E; subst. eauto.
Qed.

Lemma search_from_sound r s : forall pos m,
  search_from r s pos = Some m -> match_of r m.
Proof.
  induction s as [|c s IH]; intros pos m H; simpl in H.
  - destruct (match_at r []) as [[rest g]|] eqn:E; [|discriminate].
    inversion H; subst. destruct (match_at_sound _ _ _ _ E) as (t & _ & M).
    now exists t.
  - destruct (match_at r (c :: s)) as [[rest g]|] eqn:E.
    + inversion H; subst. destruct (match_at_sound _ _ _ _ E) as (t & _ & M).
      now exists t.
    + eauto.
Qed.

Lemma search_sound r s m : Re.search r s = Some m -> match_of r m.
Proof. apply search_from_sound. Qed.

Lemma finditer_from_sound r s : forall pos skip m,
  In m (finditer_from r s pos skip) -> match_of r m.
Proof.
  induction s as [|c s IH]; intros pos skip m H; simpl in H; [easy|].
  destruct skip as [|n]; [|eauto].
  destruct (match_at r (c :: s)) as [[rest g]|] eqn:E; [|eauto].
  destruct H as [<-|H]; [|eauto].
  destruct (match_at_sound _ _ _ _ E) as (t & _ & M). now exists t.
Qed.

Lemma finditer_sound r s m : In m (finditer r s) -> match_of r m.
Proof. apply finditer_from_sound. Qed.

(** The text of a group lies inside the text the pattern matched. *)
Lemma matches_group_within r t g g' :
  matches r t g g' ->
  forall n u, In (n, u) g' ->
  In (n, u) g \/ exists x y, t = x ++ u ++ y.
Proof.
  induction 1 as [l g|l t g E|p t g E|p t g N E
                 |a b t1 t2 g g1 g2 Ma IHa Mb IHb
                 |a b t g g' M IH|a b t g g' M IH|k a t g g' M IH];
    intros n u Hin; auto.
  - destruct (IHb _ _ Hin) as [Hin1|(x & y & ->)].
    + destruct (IHa _ _ Hin1) as [Hin0|(x & y & ->)]; [now left|].
      right. exists x, (y ++ t2). now rewrite <- !app_assoc.
    + right. exists (t1 ++ x), y. now rewrite <- !app_assoc.
  - destruct Hin as [E|Hin].
    + inversion E; subst. right. exists [], []. now rewrite app_nil_r.
    + apply IH; exact Hin.
Qed.

Lemma lookup_In n g u : lookup n g = Some u -> In (n, u) g.
Proof.
  induction g as [|[k t] g IH]; simpl; [discriminate|].
  destruct (Nat.eqb_spec k n) as [->|_]; intros H.
  - inversion H; subst. now left.
  - right. now apply IH.
Qed.

Lemma search_from_within r s : forall pos m,
  search_from r s pos = Some m ->
  exists a t b, s = a ++ t ++ b /\ matches r t [] (m_groups m).
Proof.
  induction s as [|c s IH]; intros pos m H; simpl in H.
  - destruct (match_at r []) as [[rest g]|] eqn:E; [|discriminate].
    inversion H; subst. destruct (match_at_sound _ _ _ _ E) as (t & Ht & M).
    now exists [], t, rest.
  - destruct (match_at r (c :: s)) as [[rest g]|] eqn:E.
    + inversion H; subst. destruct (match_at_sound _ _ _ _ E) as (t & Ht & M).
      now exists [], t, rest.
    + destruct (IH _ _ H) as (a & t & b & -> & M).
      now exists (c :: a), t, b.
Qed.

(** What a group of [search] holds is a piece of the text searched. *)
Lemma search_group_within r s m n :
  Re.search r s = Some m -> exists x y, s = x ++ group m n ++ y.
Proof.
  intros H. apply search_from_within in H as (a & t & b & -> & M).
  unfold group. destruct (lookup n (m_groups m)) as [u|] eqn:E.
  - apply lookup_In in E.
    destruct (matches_group_within _ _ _ _ M _ _ E) as [[]|(x & y & ->)].
    exists (a ++ x), (y ++ b). now rewrite <- !app_assoc.
  - exists [], (a ++ t ++ b). reflexivity.
Qed.

Lemma slice_within s a b : exists x y, s = x ++ slice s a b ++ y.
Proof.
  unfold slice.
  set (i := clip _ a). set (j := clip _ b).
  exists (firstn i s), (skipn (j - i) (skipn i s)).
  now rewrite firstn_skipn, firstn_skipn.
Qed.

(* ================================================================== *)
(** * int() on the texts the patterns capture *)
(* ================================================================== *)

Lemma isdigit_facts c :
  isdigit c = true ->
  int_space c = false /\ Ascii.eqb c "-" = false /\ Ascii.eqb c "+" = false
  /\ Ascii.eqb c "_" = false /\ Ascii.eqb c " " = false
  /\ Ascii.eqb c nbsp = false /\ 0 <= digit_val c <= 9.
Proof.
  ascii_cases c; intros H; try discriminate H; vm_compute; intuition congruence.
Qed.

Lemma int_digits_nonneg s : forall acc prev z,
  int_digits s acc prev = Some z -> 0 <= acc -> 0 <= z.
Proof.
  induction s as [|c s IH]; intros acc prev z H Hacc; cbn [int_digits] in H.
  - destruct prev; inversion H; subst; auto.
  - destruct (isdigit c) eqn:Hc.
    + destruct (isdigit_facts _ Hc) as (_ & _ & _ & _ & _ & _ & Hd).
      apply IH in H; [auto | lia].
    + destruct (Ascii.eqb c "_"); [|discriminate].
      destruct prev; [|discriminate].
      destruct s as [|d s']; [discriminate|].
      destruct (isdigit d); [|discriminate].
      eapply IH; eauto.
Qed.

Lemma int_digits_total s : forall acc prev,
  forallb isdigit s = true -> s <> [] \/ prev = true ->
  exists z, int_digits s acc prev = Some z.
Proof.
  induction s as [|c s IH]; intros acc prev Hs Hne; simpl.
  - destruct Hne as [Hne| ->]; [congruence|eauto].
  - simpl in Hs. apply andb_true_iff in Hs as [Hc Hs]. rewrite Hc.
    apply IH; auto.
Qed.

Lemma int_lstrip_digit c s :
  isdigit c = true -> int_lstrip (c :: s) = c :: s.
Proof.
  intros Hc. simpl. now destruct (isdigit_facts _ Hc) as (-> & _).
Qed.

(** Stripping a text that starts with a digit leaves a text that starts
    with that digit. *)
Lemma int_strip_digit c s :
  isdigit c = true -> exists s', int_strip (c :: s) = c :: s'.
Proof.
  intros Hc. unfold int_strip. rewrite int_lstrip_digit by auto.
  assert (G : forall u, exists v, int_lstrip (u ++ [c]) = v ++ [c]).
  { induction u as [|a u IHu]; simpl.
    - destruct (isdigit_facts _ Hc) as (-> & _). now exists [].
    - destruct (int_space a); [apply IHu|]. now exists (a :: u). }
  simpl. destruct (G (rev s)) as (v & ->).
  rewrite rev_app_distr. simpl. eauto.
Qed.

Lemma int_strip_digits t :
  forallb isdigit t = true -> int_strip t = t.
Proof.
  intros Ht. unfold int_strip.
  assert (G : forall u, forallb isdigit u = true -> int_lstrip u = u).
  { intros [|a u] Hu; auto. simpl in Hu. apply andb_true_iff in Hu as [Ha _].
    now apply int_lstrip_digit. }
  rewrite (G t Ht), G, rev_involutive; auto.
  rewrite forallb_forall in *. intros x Hx. apply Ht. now apply in_rev.
Qed.

(** int() of a text that starts with a digit never gives a negative number. *)
Lemma int_nonneg c s z :
  isdigit c = true -> int (c :: s) = Ok z -> 0 <= z.
Proof.
  intros Hc H. unfold int in H.
  destruct (int_strip_digit c s Hc) as (s' & E). rewrite E in H.
  destruct (isdigit_facts _ Hc) as (_ & Hm & Hp & _). rewrite Hm, Hp in H.
  destruct (int_digit_count (c :: s') <=? int_max_str_digits);
    [|discriminate H].
  destruct (int_digits (c :: s') 0 false) eqn:D; inversion H; subst.
  eapply int_digits_nonneg; eauto. lia.
Qed.

Lemma filter_isdigit_digits t :
  forallb isdigit t = true -> filter isdigit t = t.
Proof.
  induction t as [|c t IH]; simpl; auto.
  intros H. apply andb_true_iff in H as [-> H]. now rewrite IH.
Qed.

Lemma int_digit_count_digits t :
  forallb isdigit t = true -> int_digit_count t = Z.of_nat (len t).
Proof. intros H. unfold int_digit_count. now rewrite filter_isdigit_digits. Qed.

(** int() of a run of digits is the outcome of the digit limit alone. *)
Lemma int_of_digit_run t :
  t <> [] -> forallb isdigit t = true ->
  exists z, 0 <= z
    /\ int t = if Z.of_nat (len t) <=? int_max_str_digits then Ok z
               else Raise ValueError.
Proof.
  intros Hne Ht. destruct t as [|c s]; [congruence|].
  assert (Hc : isdigit c = true) by (simpl in Ht; now apply andb_true_iff in Ht).
  unfold int. rewrite int_strip_digits by auto.
  destruct (isdigit_facts _ Hc) as (_ & Hm & Hp & _). rewrite Hm, Hp.
  destruct (int_digits_total (c :: s) 0 false Ht) as (z & Hz); [left; discriminate|].
  rewrite Hz, int_digit_count_digits by auto. exists z. split.
  - eapply int_digits_nonneg; eauto. lia.
  - now destruct (_ <=? _).
Qed.

(** int() of a non-empty run of at most [int_max_str_digits] digits
    succeeds. *)
Lemma int_of_digits t :
  t <> [] -> forallb isdigit t = true ->
  Z.of_nat (len t) <= int_max_str_digits ->
  exists z, int t = Ok z /\ 0 <= z.
Proof.
  intros Hne Ht Hlen. destruct (int_of_digit_run t Hne Ht) as (z & Hz & E).
  apply Z.leb_le in Hlen. rewrite Hlen in E. eauto.
Qed.

(** int() of a longer run of digits raises ValueError. *)
Lemma int_of_long_digits t :
  forallb isdigit t = true -> int_max_str_digits < Z.of_nat (len t) ->
  int t = Raise ValueError.
Proof.
  intros Ht Hlen. destruct t as [|c s]; [vm_compute in Hlen; discriminate|].
  destruct (int_of_digit_run (c :: s)) as (z & Hz & E); [discriminate|auto|].
  apply Z.leb_gt in Hlen. now rewrite Hlen in E.
Qed.

Lemma int_run_nonneg t z :
  t <> [] -> forallb isdigit t = true -> int t = Ok z -> 0 <= z.
Proof.
  destruct t as [|c t]; [congruence|]. simpl. intros _ H E.
  apply andb_true_iff in H as [Hc _]. eapply int_nonneg; eauto.
Qed.

(** int() of a captured number: a value when the run is within the limit,
    ValueError otherwise. *)
Lemma int_run_outcome t :
  t <> [] -> forallb isdigit t = true ->
  if within_int_limit t then exists z, int t = Ok z /\ 0 <= z
  else int t = Raise ValueError.
Proof.
  intros Hne Ht. destruct (int_of_digit_run t Hne Ht) as (z & Hz & E).
  unfold within_int_limit.
  destruct (Z.of_nat (len t) <=? int_max_str_digits); eauto.
Qed.

Lemma digit_prefix_len_app d b :
  forallb isdigit d = true -> (len d <= digit_prefix_len (d ++ b))%nat.
Proof.
  unfold len. induction d as [|c d IH]; simpl; [lia|].
  intros H. apply andb_true_iff in H as [-> H]. specialize (IH H). lia.
Qed.

Lemma longest_digit_run_head s : (digit_prefix_len s <= longest_digit_run s)%nat.
Proof. destruct s; [simpl; lia|cbn [longest_digit_run]; lia]. Qed.

Lemma longest_digit_run_app a s :
  (longest_digit_run s <= longest_digit_run (a ++ s))%nat.
Proof.
  induction a as [|c a IH]; [simpl; lia|].
  cbn [app longest_digit_run]. lia.
Qed.

(** A run of digits inside a text is no longer than its longest run. *)
Lemma digit_run_bound x d y :
  forallb isdigit d = true -> (len d <= longest_digit_run (x ++ d ++ y))%nat.
Proof.
  intros H. pose proof (digit_prefix_len_app d y H).
  pose proof (longest_digit_run_head (d ++ y)).
  pose proof (longest_digit_run_app x (d ++ y)). lia.
Qed.

Lemma digit_runs_fit_within html x d y :
  digit_runs_fit html -> html = x ++ d ++ y -> forallb isdigit d = true ->
  within_int_limit d = true.
Proof.
  unfold digit_runs_fit, within_int_limit. intros H -> Hd.
  pose proof (digit_run_bound x d y Hd). apply Z.leb_le. lia.
Qed.

(** A run of digits is converted exactly when it is within the limit. *)
Lemma int_of_digits_iff t :
  t <> [] -> forallb isdigit t = true ->
  (exists z, int t = Ok z) <-> Z.of_nat (len t) <= int_max_str_digits.
Proof.
  intros Hne Ht. split.
  - intros (z & E). destruct (Z_le_gt_dec (Z.of_nat (len t)) int_max_str_digits); auto.
    rewrite int_of_long_digits in E by (auto; lia). discriminate.
  - intros H. destruct (int_of_digits t Hne Ht H) as (z & E & _). eauto.
Qed.

(* ================================================================== *)
(** * The count extractor *)
(* ================================================================== *)

Lemma lookup_group m n t g :
  m_groups m = (n, t) :: g -> group m n = t.
Proof. unfold group. intros ->. simpl. now rewrite Nat.eqb_refl. Qed.

(** Group 1 of the Du finner pattern: digits first, then digits and white
    space. *)
Lemma count_pattern_group html m :
  Re.search count_pattern html = Some m ->
  exists t1 t2, group m 1 = t1 ++ t2 /\ t1 <> []
    /\ forallb isdigit t1 = true
    /\ forallb (fun c => isspace c || isdigit c) t2 = true.
Proof.
  intros H. apply search_sound in H as (t & M).
  unfold count_pattern in M. inv_matches.
  exists t0, t3. split; [|auto].
  eapply lookup_group; eauto.
Qed.

Lemma count_pattern_alt_group html m :
  Re.search count_pattern_alt html = Some m ->
  group m 1 <> [] /\ forallb isdigit (group m 1) = true.
Proof.
  intros H. apply search_sound in H as (t & M).
  unfold count_pattern_alt in M.
  inv_matches;
    match goal with
    | H : _ = m_groups m |- _ =>
        symmetry in H; rewrite (lookup_group _ _ _ _ H); auto
    end.
Qed.

(** Whatever [_extract_total_count] returns is not negative. *)
Lemma extract_total_count_nonneg html z :
  _extract_total_count html = Ok z -> 0 <= z.
Proof.
  unfold _extract_total_count.
  destruct (Re.search count_pattern html) as [m|] eqn:E1.
  - destruct (count_pattern_group _ _ E1) as (t1 & t2 & -> & Hne & Hd & _).
    destruct t1 as [|c t1]; [congruence|]. simpl in Hd.
    apply andb_true_iff in Hd as [Hc _].
    destruct (isdigit_facts _ Hc) as (_ & _ & _ & _ & Hsp & Hnb & _).
    unfold replace_with_empty. simpl. rewrite Hsp. simpl. rewrite Hnb. simpl.
    now apply int_nonneg.
  - destruct (Re.search count_pattern_alt html) as [m|] eqn:E2.
    + destruct (count_pattern_alt_group _ _ E2) as (Hne & Hd).
      destruct (group m 1) as [|c t]; [congruence|]. simpl in Hd.
      apply andb_true_iff in Hd as [Hc _]. now apply int_nonneg.
    + intros H; inversion H; lia.
Qed.

(** With neither pattern in the page the count is 0. *)
Lemma extract_total_count_no_signal html :
  Re.search count_pattern html = None ->
  Re.search count_pattern_alt html = None ->
  _extract_total_count html = Ok 0.
Proof. unfold _extract_total_count. now intros -> ->. Qed.

(** Without the Du finner phrase it can only fail on a number beyond the
    digit limit: on a page whose runs of digits are within it, the second
    pattern gives a count. *)
Lemma extract_total_count_alt_ok html :
  Re.search count_pattern html = None -> digit_runs_fit html ->
  exists z, _extract_total_count html = Ok z.
Proof.
  unfold _extract_total_count. intros -> Hfit.
  destruct (Re.search count_pattern_alt html) as [m|] eqn:E2; [|eauto].
  destruct (count_pattern_alt_group _ _ E2) as (Hne & Hd).
  destruct (search_group_within _ _ _ 1 E2) as (x & y & Hxy).
  destruct (int_of_digits _ Hne Hd) as (z' & -> & Hz); eauto.
  apply Z.leb_le. eapply digit_runs_fit_within; eauto.
Qed.

(** The only exception int() raises is ValueError. *)
Lemma int_raises t e : int t = Raise e -> e = ValueError.
Proof.
  unfold int.
  destruct (_ <=? _);
    [destruct (match int_strip t with [] => None | _ => _ end)|];
    intros H; inversion H; reflexivity.
Qed.

Lemma extract_total_count_raises html e :
  _extract_total_count html = Raise e -> e = ValueError.
Proof.
  unfold _extract_total_count.
  destruct (Re.search count_pattern html);
    [|destruct (Re.search count_pattern_alt html)];
    try apply int_raises.
  discriminate.
Qed.

(* ================================================================== *)
(** * The search orchestrator *)
(* ================================================================== *)

Lemma bind_ok {A B} (m : result A) (f : A -> result B) b :
  bind m f = Ok b -> exists a, m = Ok a /\ f a = Ok b.
Proof. destruct m; simpl; [eauto|discriminate]. Qed.

(** The shape of a successful [search]. *)
Lemma search_ok World fetch search_type page filters w r w' :
  search World fetch search_type page filters w = (Ok r, w') ->
  exists html listings_data total_count listings,
    fetch w (_build_search_url search_type page filters) = (Ok html, w')
    /\ _extract_listings html = Ok listings_data
    /\ _extract_total_count html = Ok total_count
    /\ comprehension (fun data => _parse_listing data search_type)
         listings_data = Ok listings
    /\ r = {| sr_items := listings;
              sr_total_count := total_count;
              sr_page := page;
              sr_per_page := 51;
              sr_has_next_page :=
                page <? (if total_count >? 0
                         then (total_count + 51 - 1) / 51 else 0);
              sr_search_type := SearchType_value search_type;
              sr_filters_applied := filters |}.
Proof.
  unfold search, _make_request.
  destruct (fetch w _) as [response w1] eqn:F. intros H.
  inversion H; subst; clear H.
  match goal with H : bind _ _ = Ok _ |- _ => rename H into B end.
  apply bind_ok in B as (html & -> & B).
  apply bind_ok in B as (ld & E1 & B).
  apply bind_ok in B as (tc & E2 & B).
  apply bind_ok in B as (ls & E3 & B).
  inversion B; subst.
  exists html, ld, tc, ls. repeat split; auto.
Qed.

(** C2.  In the result of every search call per_page is 51 and
    has_next_page is true exactly when page < ceil(total_count / per_page);
    with total_count = 0 it is false whatever the page number (page numbers
    are 1-indexed; the proof only needs that the page is not negative). *)
Theorem search_has_next_page World fetch search_type page filters w r w' :
  search World fetch search_type page filters w = (Ok r, w') ->
  sr_per_page r = 51
  /\ (sr_has_next_page r = true <->
      page < Qceiling (inject_Z (sr_total_count r) / inject_Z (sr_per_page r)))
  /\ (sr_total_count r = 0 -> 0 <= page -> sr_has_next_page r = false).
Proof.
  intros H.
  destruct (search_ok _ _ _ _ _ _ _ _ H)
    as (html & ld & tc & ls & _ & _ & Htc & _ & ->).
  apply extract_total_count_nonneg in Htc.
  cbn [sr_per_page sr_has_next_page sr_total_count].
  split; [reflexivity|].
  assert (C : Qceiling (inject_Z tc / inject_Z 51) = - ((- tc) / 51)).
  { unfold Qceiling, Qfloor, Qdiv, Qmult, Qinv, Qopp, inject_Z. simpl.
    now rewrite Z.mul_1_r. }
  rewrite C. split.
  - rewrite Z.ltb_lt.
    destruct (tc >? 0) eqn:G.
    + apply Z.gtb_lt in G. split; intros; Z.div_mod_to_equations; lia.
    + assert (tc = 0) by (rewrite Z.gtb_ltb, Z.ltb_ge in G; lia). subst.
      simpl. lia.
  - intros -> Hp. simpl. apply Z.ltb_ge. lia.
Qed.

(** A page that announces 120 listings: page 1 of 3. *)
Lemma search_has_next_page_witness :
  let r := {| sr_items := []; sr_total_count := 120; sr_page := 1;
              sr_per_page := 51; sr_has_next_page := true;
              sr_search_type := L "lettings"; sr_filters_applied := [] |} in
  search script scripted_fetch LETTINGS 1 [] [Ok (L "Du finner 120 boliger")]
    = (Ok r, [])
  /\ sr_per_page r = 51
  /\ (sr_has_next_page r = true <->
      1 < Qceiling (inject_Z (sr_total_count r) / inject_Z (sr_per_page r)))
  /\ (sr_total_count r = 0 -> 0 <= 1 -> sr_has_next_page r = false).
Proof.
  intros r.
  assert (H : search script scripted_fetch LETTINGS 1 []
                [Ok (L "Du finner 120 boliger")] = (Ok r, []))
    by (vm_compute; reflexivity).
  split; [exact H|].
  exact (search_has_next_page script scripted_fetch LETTINGS 1 [] _ r [] H).
Defined.

(* ================================================================== *)
(** * The URL builder *)
(* ================================================================== *)

Lemma str_eqb_eq a b : str_eqb a b = true <-> a = b.
Proof. unfold str_eqb. destruct (list_eq_dec ascii_dec a b); split; congruence. Qed.

Lemma dict_set_find_other d k k' v :
  str_eqb k k' = false -> dict_find (dict_set d k v) k' = dict_find d k'.
Proof.
  intros Hk. induction d as [|[k0 v0] d IH]; simpl.
  - now rewrite Hk.
  - destruct (str_eqb k0 k) eqn:E; simpl.
    + apply str_eqb_eq in E. subst. now rewrite Hk.
    + now rewrite IH.
Qed.

Lemma dict_set_fresh d k v :
  dict_find d k = None -> dict_set d k v = d ++ [(k, v)].
Proof.
  induction d as [|[k0 v0] d IH]; simpl; auto.
  destruct (str_eqb k0 k); [discriminate|]. intros H. now rewrite IH.
Qed.






(* ================================================================== *)
(** * The record normalizer *)
(* ================================================================== *)




(* ================================================================== *)
(** * Transport failures *)
(* ================================================================== *)

(** A search whose fetch raises raises the same exception. *)
Lemma search_fetch_raises World fetch search_type page filters w e w' :
  fetch w (_build_search_url search_type page filters) = (Raise e, w') ->
  search World fetch search_type page filters w = (Raise e, w').
Proof. unfold search, _make_request. now intros ->. Qed.

(** The detail resolver goes on to the next candidate when the fetch of one
    raises a RequestException. *)
Lemma details_loop_skips_failure World fetch listing_id search_type rest w w' :
  fetch w (ad_url search_type listing_id) = (Raise RequestException, w') ->
  details_loop World fetch listing_id (search_type :: rest) w
  = details_loop World fetch listing_id rest w'.
Proof. cbn [details_loop]. unfold _make_request. now intros ->. Qed.

(** C5, as the code has it.  A transport failure is surfaced by [search]
    and by the traversal: the exception of the fetch is the exception of the
    call, and the generator is finished.  The detail resolver is different:
    it catches the RequestException of each candidate category and goes on
    to the next; when the fetch fails for all three it returns None. *)
Theorem transport_failure_handling World fetch
    search_type max_pages page filters listing_id w :
  (forall e w',
     fetch w (_build_search_url search_type page filters) = (Raise e, w') ->
     search World fetch search_type page filters w = (Raise e, w')
     /\ gen_search World fetch search_type filters page w
        = (ESearchRaised page e, GDone, w')
     /\ (page = 1 ->
         gen_step World fetch search_type max_pages filters GStart w
         = (ESearchRaised 1 e, GDone, w')))
  /\ (forall w1 w2 w3,
        fetch w (ad_url LETTINGS listing_id) = (Raise RequestException, w1) ->
        fetch w1 (ad_url HOMES listing_id) = (Raise RequestException, w2) ->
        fetch w2 (ad_url LEISURE listing_id) = (Raise RequestException, w3) ->
        get_listing_details World fetch listing_id w = (Ok None, w3)).
Proof.
  split.
  - intros e w' E.
    pose proof (search_fetch_raises _ _ _ _ _ _ _ _ E) as S.
    split; [exact S|]. unfold gen_search. rewrite S.
    split; [reflexivity|]. intros ->. cbn [gen_step]. unfold gen_search.
    now rewrite S.
  - intros w1 w2 w3 E1 E2 E3. unfold get_listing_details.
    rewrite (details_loop_skips_failure _ _ _ _ _ _ _ E1).
    rewrite (details_loop_skips_failure _ _ _ _ _ _ _ E2).
    rewrite (details_loop_skips_failure _ _ _ _ _ _ _ E3).
    reflexivity.
Qed.

(** A site that is down: every fetch fails. *)
Lemma transport_failure_handling_witness :
  search script scripted_fetch HOMES 1 [] [] = (Raise RequestException, [])
  /\ gen_step script scripted_fetch HOMES (Some 2) [] GStart []
     = (ESearchRaised 1 RequestException, GDone, [])
  /\ get_listing_details script scripted_fetch (L "123") [] = (Ok None, []).
Proof.
  destruct (transport_failure_handling script scripted_fetch
              HOMES (Some 2) 1 [] (L "123") []) as [S D].
  destruct (S RequestException [] eq_refl) as (S1 & _ & S3).
  split; [exact S1|]. split; [exact (S3 eq_refl)|].
  exact (D [] [] [] eq_refl eq_refl eq_refl).
Defined.

(** C5 fails as stated for detail resolution: with the site down the
    resolver raises nothing and answers None. *)
Lemma get_listing_details_swallows_failure :
  scripted_fetch [] (ad_url LETTINGS (L "123")) = (Raise RequestException, [])
  /\ get_listing_details script scripted_fetch (L "123") [] = (Ok None, [])
  /\ raises (fst (get_listing_details script scripted_fetch (L "123") []))
     = false.
Proof. repeat split. Qed.

(* ================================================================== *)
(** * The detail extraction pass *)
(* ================================================================== *)

(** Without an h1 heading the pass cannot build its result: either a
    conversion has already failed, or the constructor is called without
    the required heading. *)
Lemma parse_listing_details_needs_heading html listing_id search_type :
  Re.search heading_pattern html = None ->
  raises (_parse_listing_details html listing_id search_type) = true.
Proof.
  intros H. unfold _parse_listing_details, search_group. rewrite H.
  cbn [option_map].
  destruct (convert float _) as [latitude|]; [|reflexivity].
  destruct (convert float _) as [longitude|]; [|reflexivity].
  destruct (convert int _) as [price_total|]; reflexivity.
Qed.

(** With a heading and well-formed numbers the pass returns, and a field
    whose pattern is not in the page is None in the result. *)
Lemma parse_listing_details_absent_fields html listing_id search_type d :
  _parse_listing_details html listing_id search_type = Ok d ->
  (Re.search (quoted_field "streetAddress") html = None -> ld_address d = None)
  /\ (Re.search postal_pattern html = None -> ld_postal_code d = None)
  /\ (Re.search (quoted_field "addressLocality") html = None -> ld_city d = None)
  /\ (Re.search (coordinate_pattern "latitude") html = None ->
      ld_latitude d = None)
  /\ (Re.search (coordinate_pattern "longitude") html = None ->
      ld_longitude d = None)
  /\ (Re.search price_pattern html = None -> ld_price_total d = None)
  /\ (Re.search (quoted_field "description") html = None ->
      ld_description d = None).
Proof.
  unfold _parse_listing_details, search_group. intros H.
  apply bind_ok in H as (latitude & Hlat & H).
  apply bind_ok in H as (longitude & Hlng & H).
  apply bind_ok in H as (price_total & Hprice & H).
  unfold ListingDetails_init in H. cbn in H.
  destruct (option_map strip _) as [heading|]; [|discriminate H].
  inversion H; subst; clear H. cbn.
  repeat split; intros E; rewrite E in *; cbn in *;
    try reflexivity; congruence.
Qed.

(** C6: the failing input.  A page that carries the identifier but no h1
    heading makes the pass raise a TypeError (the constructor of
    ListingDetails is called without its required heading), and the
    exception leaves [get_listing_details] too; a coordinate such as 1.2.3
    makes it raise a ValueError. *)
Theorem parse_listing_details_raises_without_h1 :
  _parse_listing_details (L "finnkode=123") (L "123") LETTINGS
    = Raise TypeError
  /\ get_listing_details script scripted_fetch (L "123")
       [Ok (L "finnkode=123")] = (Raise TypeError, [])
  /\ _parse_listing_details
       (Q "<h1>Flat</h1> 'latitude': 1.2.3") (L "123") LETTINGS
     = Raise ValueError.
Proof. repeat split; vm_compute; reflexivity. Qed.

(* ================================================================== *)
(** * The count extractor on its failing input *)
(* ================================================================== *)

(** C3: the failing input.  The Du finner pattern takes any white space
    between the digits, the two replace calls remove only the blank and the
    non-breaking space, and int() rejects what is left: a tab between the
    digits makes the extractor raise a ValueError. *)
Theorem extract_total_count_raises_on_tab :
  _extract_total_count (L "Du finner 1" ++ [tab] ++ L "234 boliger")
    = Raise ValueError.
Proof. vm_compute. reflexivity. Qed.

(* ================================================================== *)
(** * Greedy repetition *)
(* ================================================================== *)

(** If the continuation gives [x] wherever the repetition stops, the
    repetition gives [x]. *)
Lemma star_any_split {A} p s (k : str -> option A) x :
  (forall a b, s = a ++ b -> k b = Some x) -> star p s k = Some x.
Proof.
  induction s as [|c s IH]; intros H; simpl.
  - apply (H [] []). reflexivity.
  - assert (Hs : star p s k = Some x).
    { apply IH. intros a b ->. apply (H (c :: a) b). reflexivity. }
    rewrite Hs. destruct (mem p c); [reflexivity|].
    apply (H [] (c :: s)). reflexivity.
Qed.

(** A run of [p] followed by a text that stops it is taken whole when the
    continuation accepts what follows. *)
Lemma star_greedy {A} p a rest (k : str -> option A) x :
  forallb (mem p) a = true -> stops p rest = true ->
  k rest = Some x -> star p (a ++ rest) k = Some x.
Proof.
  intros Ha Hr Hk. induction a as [|c a IH]; simpl.
  - destruct rest as [|c rest]; simpl in *; auto.
    apply negb_true_iff in Hr. now rewrite Hr.
  - simpl in Ha. apply andb_true_iff in Ha as [Hc Ha].
    rewrite Hc, IH; auto.
Qed.

(** ** The Du finner pattern, position by position *)

Lemma star_some {A} p s (k : str -> option A) :
  (forall s', k s' <> None) -> star p s k <> None.
Proof.
  intros Hk. induction s as [|c s IH]; simpl; auto.
  destruct (mem p c); auto.
  destruct (star p s k); [discriminate|auto].
Qed.

Lemma match_at_count_pattern_none s :
  match_at count_pattern s = None <-> starts_count s = false.
Proof.
  unfold match_at, count_pattern, starts_count. cbn [run].
  destruct (lit false (L "Du finner ") s) as [[|d s']|]; [easy| |easy].
  cbn [plus]. cbn [mem]. destruct (isdigit d); [|easy].
  split; [|discriminate]. intros H. exfalso. revert H.
  apply star_some. intros s1. apply star_some. discriminate.
Qed.

Lemma lit_app ci l s : lit ci l (l ++ s) = Some s.
Proof.
  induction l as [|a l IH]; simpl; auto.
  destruct ci; now rewrite Ascii.eqb_refl.
Qed.

Lemma star_stops {A} p rest (k : str -> option A) :
  stops p rest = true -> star p rest k = k rest.
Proof.
  destruct rest as [|c rest]; simpl; auto.
  intros H. apply negb_true_iff in H. now rewrite H.
Qed.

(** If the continuation gives [x] wherever the repetition stops inside [u],
    and the text after [u] stops the repetition, the repetition gives [x]. *)
Lemma star_split_within {A} p u rest (k : str -> option A) x :
  stops p rest = true ->
  (forall a b, u = a ++ b -> k (b ++ rest) = Some x) ->
  star p (u ++ rest) k = Some x.
Proof.
  intros Hr. induction u as [|c u IH]; intros H.
  - simpl. rewrite star_stops by assumption. apply (H [] []). reflexivity.
  - simpl. assert (Hs : star p (u ++ rest) k = Some x).
    { apply IH. intros a b ->. apply (H (c :: a) b). reflexivity. }
    rewrite Hs. destruct (mem p c); [reflexivity|].
    apply (H [] (c :: u)). reflexivity.
Qed.

Lemma forallb_app_r {A} (f : A -> bool) a b :
  forallb f (a ++ b) = true -> forallb f b = true.
Proof. rewrite forallb_app. intros H. now apply andb_true_iff in H. Qed.

(** The Du finner pattern takes the whole run of digits and white space. *)
Lemma match_at_count_pattern_greedy c u rest :
  isdigit c = true ->
  forallb (mem (Or Space Digit)) u = true ->
  stops (Or Space Digit) rest = true ->
  match_at count_pattern (L "Du finner " ++ c :: u ++ rest)
  = Some (rest, [(1%nat, c :: u)]).
Proof.
  intros Hc Hu Hr. unfold match_at, count_pattern. cbn [run].
  rewrite lit_app. cbn [plus mem]. rewrite Hc.
  apply star_split_within.
  - destruct rest as [|r rest]; simpl in *; auto.
    apply negb_true_iff in Hr. apply orb_false_iff in Hr as [_ Hr].
    now rewrite Hr.
  - intros a b ->. apply star_greedy; auto.
    + eapply forallb_app_r; eauto.
    + change (c :: (a ++ b) ++ rest) with ((c :: a ++ b) ++ rest).
      now rewrite firstn_consumed.
Qed.

(** A text that does not start a match still does not when a text that
    begins with D is put after it. *)
Lemma starts_count_app pre z :
  pre <> [] -> starts_count pre = false ->
  starts_count (pre ++ "D"%char :: z) = false.
Proof.
  intros Hne H.
  destruct pre as [|c0 pre]; [congruence|].
  unfold starts_count, L in *. cbn [list_ascii_of_string] in *.
  do 10 (destruct pre as [|? pre]; [clear H; eqb_cases; reflexivity|]).
  cbn [lit app] in *. eqb_cases; try reflexivity. assumption.
Qed.

Lemma search_from_count_skip pre z : forall pos,
  search_from count_pattern pre pos = None ->
  search_from count_pattern (pre ++ "D"%char :: z) pos
  = search_from count_pattern ("D"%char :: z) (pos + len pre).
Proof.
  induction pre as [|c pre IH]; intros pos H.
  - simpl. now rewrite Nat.add_0_r.
  - cbn [search_from] in H.
    destruct (match_at count_pattern (c :: pre)) as [[? ?]|] eqn:E;
      [discriminate|].
    apply match_at_count_pattern_none in E.
    apply (starts_count_app _ z) in E; [|discriminate].
    apply match_at_count_pattern_none in E.
    change ((c :: pre) ++ "D"%char :: z) with (c :: pre ++ "D"%char :: z) in *.
    cbn [search_from]. rewrite E. rewrite IH by assumption.
    replace (pos + len (c :: pre))%nat with (S pos + len pre)%nat
      by (unfold len; simpl; lia).
    reflexivity.
Qed.

(* ================================================================== *)
(** * The count phrase *)
(* ================================================================== *)

(** C8, as the code has it.  When the phrase Du finner 1 234 treff, with a
    blank or a non-breaking space between the digit groups, is the first
    place of the page where Du finner is followed by a digit, count
    extraction returns 1234. *)
Theorem extract_total_count_phrase pre sep post :
  sep = " "%char \/ sep = nbsp ->
  Re.search count_pattern pre = None ->
  _extract_total_count
    (pre ++ L "Du finner 1" ++ [sep] ++ L "234 treff" ++ post) = Ok 1234.
Proof.
  intros Hsep Hpre. unfold _extract_total_count, Re.search.
  change (pre ++ L "Du finner 1" ++ [sep] ++ L "234 treff" ++ post)
    with (pre ++ "D"%char :: L "u finner 1" ++ [sep] ++ L "234 treff" ++ post).
  rewrite search_from_count_skip by exact Hpre.
  cbn [search_from].
  change ("D"%char :: L "u finner 1" ++ [sep] ++ L "234 treff" ++ post)
    with (L "Du finner " ++ "1"%char :: (sep :: L "234 ") ++ L "treff" ++ post).
  rewrite match_at_count_pattern_greedy.
  - unfold group, mk_match. cbn [m_groups lookup Nat.eqb].
    destruct Hsep as [-> | ->]; vm_compute; reflexivity.
  - reflexivity.
  - destruct Hsep as [-> | ->]; reflexivity.
  - reflexivity.
Qed.

Lemma extract_total_count_phrase_witness :
  (nbsp = " "%char \/ nbsp = nbsp)
  /\ Re.search count_pattern (L "<title>Bolig til leie</title>") = None
  /\ _extract_total_count
       (L "<title>Bolig til leie</title>" ++ L "Du finner 1" ++ [nbsp]
        ++ L "234 treff" ++ L " i Oslo") = Ok 1234.
Proof.
  split; [right; reflexivity|]. split; [reflexivity|].
  apply (extract_total_count_phrase (L "<title>Bolig til leie</title>")
           nbsp (L " i Oslo")); [right; reflexivity | reflexivity].
Defined.

(** C8 fails as stated: a page can contain the phrase and yet have an
    earlier Du finner followed by a digit, and the first one wins. *)
Lemma extract_total_count_earlier_phrase :
  _extract_total_count (L "Du finner 7 rom. " ++ L "Du finner 1 234 treff")
  = Ok 7.
Proof. vm_compute. reflexivity. Qed.

(* ================================================================== *)
(** * The lazy traversal *)
(* ================================================================== *)

Section TraversalProperties.
Variable World : Type.
Variable fetch : World -> str -> result str * World.
Variable search_type : SearchType.
Variable filters : dict.
Variable n : Z.
Hypothesis n_pos : 1 <= n.

Let run := gen_run World fetch search_type (Some n) filters.
Let step := gen_step World fetch search_type (Some n) filters.

Lemma pages_after_S p j : pages_after p (S j) = (p + 1) :: pages_after (p + 1) j.
Proof.
  unfold pages_after. cbn [seq map]. f_equal.
  rewrite <- seq_shift, map_map. apply map_ext. intros i. lia.
Qed.

Lemma run_done k w : run k GDone w = ([], GDone, w).
Proof. destruct k; reflexivity. Qed.

Lemma run_step k g w :
  g <> GDone ->
  run (S k) g w =
  let '(e, g', w') := step g w in
  let '(es, g'', w'') := run k g' w' in (e :: es, g'', w'').
Proof. destruct g; try reflexivity. congruence. Qed.

Lemma limit_not_reached p :
  page_limit_reached (Some n) p = false -> p < n.
Proof.
  unfold page_limit_reached. intros H.
  apply andb_false_iff in H as [H|H].
  - apply negb_false_iff, Z.eqb_eq in H. lia.
  - rewrite Z.geb_leb in H. apply Z.leb_gt in H. lia.
Qed.

(** After a call for page p+1 the run goes on from that page. *)
Lemma run_after_search k p w :
  (forall hn rest w0, p + 1 <= n ->
     exists j, searched_pages (events_of (run k (GItems (p + 1) hn rest) w0))
               = pages_after (p + 1) j /\ p + 1 + Z.of_nat j <= n) ->
  p < n ->
  forall e g' w' es g'' w'',
    gen_search World fetch search_type filters (p + 1) w = (e, g', w') ->
    run k g' w' = (es, g'', w'') ->
    exists j, searched_pages (e :: es) = pages_after p j
              /\ p + Z.of_nat j <= n.
Proof.
  intros IH Hp e g' w' es g'' w'' Hs Hr. unfold gen_search in Hs.
  destruct (search World fetch search_type (p + 1) filters w) as [[r|ex] w1];
    inversion Hs; subst; clear Hs.
  - destruct (IH (sr_has_next_page r) (sr_items r) w') as (j & Hj & Hle);
      [lia|].
    rewrite Hr in Hj. cbn [events_of fst] in Hj.
    exists (S j). cbn [searched_pages is_search].
    rewrite Hj, pages_after_S. split; [reflexivity|lia].
  - rewrite run_done in Hr. inversion Hr; subst.
    exists 1%nat. split; [|lia]. cbn. f_equal. 
Qed.

(** From inside page p, the calls still to come are for the pages
    p+1, ..., p+j, none beyond n. *)
Lemma run_pages_from k : forall p hn rest w,
  p <= n ->
  exists j, searched_pages (events_of (run k (GItems p hn rest) w))
            = pages_after p j /\ p + Z.of_nat j <= n.
Proof.
  induction k as [|k IH]; intros p hn rest w Hp.
  - exists 0%nat. split; [reflexivity|lia].
  - rewrite run_step by discriminate. unfold step. cbn [gen_step].
    destruct rest as [|listing rest].
    + destruct hn; cbn [negb].
      * destruct (page_limit_reached (Some n) p) eqn:Hl.
        -- rewrite run_done. exists 0%nat. split; [reflexivity|lia].
        -- apply limit_not_reached in Hl.
           destruct (gen_search World fetch search_type filters (p + 1) w)
             as [[e g'] w'] eqn:Hs.
           destruct (run k g' w') as [[es g''] w''] eqn:Hr.
           cbn [events_of fst].
           eapply run_after_search; eauto.
      * rewrite run_done. exists 0%nat. split; [reflexivity|lia].
    + destruct (IH p hn rest w Hp) as (j & Hj & Hle).
      destruct (run k (GItems p hn rest) w) as [[es g''] w''].
      exists j. split; auto.
  Qed.

(** The calls of a run from the start are for the pages 1, ..., j with
    j <= n. *)
Lemma run_pages_from_start k w :
  exists j, searched_pages (events_of (run k GStart w)) = pages_after 0 j
            /\ Z.of_nat j <= n.
Proof.
  destruct k as [|k].
  - exists 0%nat. split; [reflexivity|lia].
  - rewrite run_step by discriminate. unfold step. cbn [gen_step].
    destruct (gen_search World fetch search_type filters 1 w)
      as [[e g'] w'] eqn:Hs.
    destruct (run k g' w') as [[es g''] w''] eqn:Hr.
    cbn [events_of fst].
    change 1 with (0 + 1) in Hs.
    assert (IH : forall hn rest w0, 0 + 1 <= n ->
              exists j,
                searched_pages (events_of (run k (GItems (0 + 1) hn rest) w0))
                = pages_after (0 + 1) j /\ 0 + 1 + Z.of_nat j <= n).
    { intros hn rest w0 _. apply run_pages_from. lia. }
    assert (H0 : 0 < n) by lia.
    destruct (run_after_search k 0 w IH H0 _ _ _ _ _ _ Hs Hr)
      as (j & Hj & Hle).
    exists j. split; [exact Hj|lia].
Qed.

(** A run that is driven long enough ends. *)
Lemma run_ends_from m : forall p hn rest w,
  n - p <= Z.of_nat m ->
  exists k, state_of (run k (GItems p hn rest) w) = GDone.
Proof.
  induction m as [|m IHm]; intros p hn rest w Hm;
    induction rest as [|listing rest IHr].
  - exists 1%nat. rewrite run_step by discriminate. unfold step.
    cbn [gen_step]. destruct hn; cbn [negb]; [|now rewrite run_done].
    destruct (page_limit_reached (Some n) p) eqn:Hl; [now rewrite run_done|].
    apply limit_not_reached in Hl. lia.
  - destruct IHr as (k & Hk). exists (S k).
    rewrite run_step by discriminate. unfold step. cbn [gen_step].
    destruct (run k (GItems p hn rest) w) as [[es g] w']. exact Hk.
  - destruct hn.
    2:{ exists 1%nat. rewrite run_step by discriminate. unfold step.
        cbn [gen_step negb]. now rewrite run_done. }
    destruct (page_limit_reached (Some n) p) eqn:Hl.
    { exists 1%nat. rewrite run_step by discriminate. unfold step.
      cbn [gen_step negb]. rewrite Hl. now rewrite run_done. }
    destruct (search World fetch search_type (p + 1) filters w)
      as [[r|ex] w1] eqn:Hs.
    + destruct (IHm (p + 1) (sr_has_next_page r) (sr_items r) w1)
        as (k & Hk); [lia|].
      exists (S k). rewrite run_step by discriminate. unfold step.
      cbn [gen_step negb]. rewrite Hl. unfold gen_search. rewrite Hs.
      destruct (run k _ w1) as [[es g] w']. exact Hk.
    + exists 1%nat. rewrite run_step by discriminate. unfold step.
      cbn [gen_step negb]. rewrite Hl. unfold gen_search. rewrite Hs.
      now rewrite run_done.
  - destruct IHr as (k & Hk). exists (S k).
    rewrite run_step by discriminate. unfold step. cbn [gen_step].
    destruct (run k (GItems p hn rest) w) as [[es g] w']. exact Hk.
Qed.

Lemma run_ends w : exists k, state_of (run k GStart w) = GDone.
Proof.
  destruct (search World fetch search_type 1 filters w)
    as [[r|ex] w1] eqn:Hs.
  - destruct (run_ends_from (Z.to_nat n) 1 (sr_has_next_page r)
                (sr_items r) w1) as (k & Hk); [lia|].
    exists (S k). rewrite run_step by discriminate. unfold step.
    cbn [gen_step]. unfold gen_search. rewrite Hs.
    destruct (run k _ w1) as [[es g] w']. exact Hk.
  - exists 1%nat. rewrite run_step by discriminate. unfold step.
    cbn [gen_step]. unfold gen_search. rewrite Hs. now rewrite run_done.
Qed.
End TraversalProperties.

(** C9.  With max_pages = n >= 1 (n = 2 in the claim), however the pages
    answer and however far the traversal is driven, [search] is called for
    the pages 1, ..., j and no other, with j <= n: at most n calls, hence at
    most n fetches; the traversal driven to the end does end; and at the end
    of a page it stops exactly when has_next_page is false or the page
    number has reached n, and calls [search] for the next page otherwise. *)
Theorem search_all_pages_page_limit World fetch search_type filters n w :
  1 <= n ->
  (forall steps, exists j,
      searched_pages
        (events_of (search_all_pages World fetch search_type (Some n)
                      filters steps w))
      = map Z.of_nat (seq 1 j)
      /\ Z.of_nat j <= n)
  /\ (exists steps,
        state_of (search_all_pages World fetch search_type (Some n)
                    filters steps w) = GDone)
  /\ (forall page has_next_page w0,
        gen_step World fetch search_type (Some n) filters
          (GItems page has_next_page []) w0
        = if negb has_next_page || (page >=? n) then (EStop, GDone, w0)
          else gen_search World fetch search_type filters (page + 1) w0).
Proof.
  intros Hn. repeat split.
  - intros steps. unfold search_all_pages.
    destruct (run_pages_from_start World fetch search_type filters n Hn steps w)
      as (j & Hj & Hle).
    exists j. split; [|exact Hle]. rewrite Hj. unfold pages_after.
    apply map_ext. intros i. lia.
  - apply run_ends. exact Hn.
  - intros page has_next_page w0. cbn [gen_step page_limit_reached].
    replace (n =? 0) with false by (symmetry; apply Z.eqb_neq; lia).
    cbn [negb andb]. destruct has_next_page; reflexivity.
Qed.

(** Three pages that each announce 500 listings, so that has_next_page is
    true on every one of them. *)
Lemma search_all_pages_page_limit_witness :
  let page := Ok (L "Du finner 500 boliger") in
  1 <= 2
  /\ (forall steps, exists j,
        searched_pages
          (events_of (search_all_pages script scripted_fetch HOMES (Some 2)
                        [] steps [page; page; page]))
        = map Z.of_nat (seq 1 j)
        /\ Z.of_nat j <= 2)
  /\ (exists steps,
        state_of (search_all_pages script scripted_fetch HOMES (Some 2)
                    [] steps [page; page; page]) = GDone)
  /\ (forall page has_next_page w0,
        gen_step script scripted_fetch HOMES (Some 2) []
          (GItems page has_next_page []) w0
        = if negb has_next_page || (page >=? 2) then (EStop, GDone, w0)
          else gen_search script scripted_fetch HOMES [] (page + 1) w0).
Proof.
  intros page. split; [lia|].
  apply (search_all_pages_page_limit script scripted_fetch HOMES [] 2
           [page; page; page]).
  lia.
Defined.

(** The same site, traversed to the end with max_pages = 2: two calls of
    [search], for the pages 1 and 2, although page 2 says there is more; the
    third response is never asked for. *)
Example search_all_pages_two_calls :
  let page := Ok (L "Du finner 500 boliger") in
  let r := search_all_pages script scripted_fetch HOMES (Some 2) [] 10
             [page; page; page] in
  searched_pages (events_of r) = [1; 2]
  /\ state_of r = GDone
  /\ snd r = [page]
  /\ forall e, In e (events_of r) ->
       match e with
       | ESearched _ results => sr_has_next_page results = true
       | _ => True
       end.
Proof.
  vm_compute. repeat split; try reflexivity.
  intros e [<-|[<-|[<-|[]]]]; exact I || reflexivity.
Qed.

(* ================================================================== *)
(** * First occurrences *)
(* ================================================================== *)


Section FirstByKeyFacts.
Context {A : Type} (key : A -> str).

Lemma filter_comm (f g : A -> bool) l :
  filter f (filter g l) = filter g (filter f l).
Proof.
  induction l as [|a l IH]; simpl; auto.
  destruct (g a) eqn:G, (f a) eqn:F; simpl; rewrite ?G, ?F, IH; auto.
Qed.

Lemma filter_idem (f : A -> bool) l : filter f (filter f l) = filter f l.
Proof.
  induction l as [|a l IH]; simpl; auto.
  destruct (f a) eqn:F; simpl; rewrite ?F, IH; auto.
Qed.

Lemma first_by_key_filter x l :
  first_by_key key (filter (other_than key x) l)
  = filter (other_than key x) (first_by_key key l).
Proof.
  induction l as [|a l IH]; simpl; auto.
  destruct (other_than key x a) eqn:E; simpl.
  - rewrite IH, filter_comm. reflexivity.
  - rewrite IH. unfold other_than in E.
    apply negb_false_iff, str_eqb_eq in E. subst x.
    now rewrite filter_idem.
Qed.

Lemma unseen_cons x seen l :
  unseen key (x :: seen) l = filter (other_than key x) (unseen key seen l).
Proof.
  unfold unseen, other_than. induction l as [|a l IH]; cbn in *; auto.
  destruct (str_eqb (key a) x) eqn:E;
    destruct (existsb (str_eqb (key a)) seen) eqn:S;
    cbn; rewrite ?E; cbn; rewrite IH; reflexivity.
Qed.

Lemma unseen_nil l : unseen key [] l = l.
Proof. unfold unseen. induction l as [|a l IH]; cbn in *; [|rewrite IH]; reflexivity. Qed.

Lemma first_by_key_keys l :
  map key (first_by_key key l) = first_occurrences (map key l).
Proof.
  induction l as [|a l IH]; simpl; auto.
  f_equal. rewrite <- IH. generalize (first_by_key key l). intros m.
  induction m as [|b m IHm]; simpl; auto.
  unfold other_than at 1. destruct (negb _); simpl; now rewrite IHm.
Qed.

Lemma first_by_key_incl l a : In a (first_by_key key l) -> In a l.
Proof.
  revert a. induction l as [|b l IH]; simpl; auto.
  intros a [->|H]; auto. apply filter_In in H as [H _]. auto.
Qed.
End FirstByKeyFacts.

Lemma first_occurrences_In ids x : In x (first_occurrences ids) <-> In x ids.
Proof.
  induction ids as [|y ids IH]; simpl; [tauto|].
  rewrite filter_In, IH. split.
  - intros [->|[H _]]; auto.
  - intros [->|H]; auto.
    destruct (str_eqb x y) eqn:E; [apply str_eqb_eq in E; auto|].
    right. split; [assumption | reflexivity].
Qed.

Lemma first_occurrences_NoDup ids : NoDup (first_occurrences ids).
Proof.
  induction ids as [|y ids IH]; simpl; constructor.
  - rewrite filter_In. intros [_ H].
    apply negb_true_iff in H. 
    assert (E : str_eqb y y = true) by now apply str_eqb_eq.
    congruence.
  - now apply NoDup_filter.
Qed.

(** There are as many first occurrences as distinct identifiers. *)
Lemma first_occurrences_length ids :
  List.length (first_occurrences ids)
  = List.length (nodup (list_eq_dec ascii_dec) ids).
Proof.
  apply Permutation_length, NoDup_Permutation.
  - apply first_occurrences_NoDup.
  - apply NoDup_nodup.
  - intros x. rewrite first_occurrences_In, nodup_In. tauto.
Qed.

(* ================================================================== *)
(** * The fragment extractor *)
(* ================================================================== *)

(** The height and the width the image pattern captures are numbers. *)
Lemma image_pattern_groups chunk im :
  Re.search image_pattern chunk = Some im ->
  (group im 3 <> [] /\ forallb isdigit (group im 3) = true)
  /\ (group im 4 <> [] /\ forallb isdigit (group im 4) = true).
Proof.
  intros H. apply search_sound in H as (t & M).
  unfold image_pattern in M. inv_matches.
  unfold group.
  match goal with H : _ = m_groups im |- _ => rewrite <- H end.
  cbn. auto.
Qed.

(** The four anchor fields of a match: the identifier is a number, the
    search key and the heading are not empty. *)
Lemma listing_pattern_groups m :
  match_of listing_pattern m ->
  (group m 1 <> [] /\ forallb isdigit (group m 1) = true)
  /\ group m 2 <> [] /\ group m 3 <> [].
Proof.
  intros (t & M). unfold listing_pattern in M. inv_matches.
  unfold group.
  match goal with H : _ = m_groups m |- _ => rewrite <- H end.
  cbn. auto.
Qed.

(** The record the body of the loop builds carries the anchor fields of
    its match. *)
Lemma listing_of_match_fields html m d :
  listing_of_match html m = Ok d ->
  dict_find d (L "id") = Some (VStr (group m 1))
  /\ dict_find d (L "heading") = Some (VStr (group m 3))
  /\ dict_find d (L "location") = Some (VStr (group m 4)).
Proof.
  unfold listing_of_match.
  set (chunk := slice html _ _).
  destruct (Re.search image_pattern chunk) as [im|].
  - destruct (int (group im 3)) as [h|]; [|discriminate].
    destruct (int (group im 4)) as [w|]; [|discriminate].
    cbn [bind].
    destruct (Re.search flags_pattern chunk); intros H; inversion H;
      repeat split; reflexivity.
  - cbn [bind].
    destruct (Re.search flags_pattern chunk); intros H; inversion H;
      repeat split; reflexivity.
Qed.

(** The body of the loop raises, a ValueError, exactly on an image whose
    height or width is beyond the digit limit of int(). *)
Lemma listing_of_match_outcome html m :
  if image_size_fits html m
  then exists d, listing_of_match html m = Ok d
  else listing_of_match html m = Raise ValueError.
Proof.
  unfold image_size_fits, listing_chunk, listing_of_match.
  set (chunk := slice html _ _).
  destruct (Re.search image_pattern chunk) as [im|] eqn:I.
  - destruct (image_pattern_groups _ _ I) as ((N3 & D3) & (N4 & D4)).
    pose proof (int_run_outcome _ N3 D3) as H3.
    pose proof (int_run_outcome _ N4 D4) as H4.
    destruct (within_int_limit (group im 3)).
    + destruct H3 as (h & -> & _).
      destruct (within_int_limit (group im 4)); cbn [andb].
      * destruct H4 as (w & -> & _). cbn [bind].
        destruct (Re.search flags_pattern chunk); eexists; reflexivity.
      * rewrite H4. reflexivity.
    + rewrite H3. reflexivity.
  - cbn [bind]. destruct (Re.search flags_pattern chunk); eexists; reflexivity.
Qed.

(** On a page whose runs of digits are within the limit every image fits. *)
Lemma digit_runs_fit_image html m :
  digit_runs_fit html -> image_size_fits html m = true.
Proof.
  intros Hfit. unfold image_size_fits, listing_chunk.
  set (chunk := slice html _ _).
  destruct (Re.search image_pattern chunk) as [im|] eqn:I; [|reflexivity].
  destruct (image_pattern_groups _ _ I) as ((_ & D3) & (_ & D4)).
  assert (W : forall n, forallb isdigit (group im n) = true ->
                        within_int_limit (group im n) = true).
  { intros n D. destruct (search_group_within _ _ _ n I) as (x & y & Hc).
    destruct (slice_within html (Z.of_nat (m_start m))
                (if find html (Q "{'type':'realestate'")
                        (Z.of_nat (m_start m) + 10) =? -1
                 then Z.of_nat (m_start m) + 2000
                 else find html (Q "{'type':'realestate'")
                        (Z.of_nat (m_start m) + 10)))
      as (x' & y' & Hs).
    fold chunk in Hs. rewrite Hc in Hs.
    apply (digit_runs_fit_within html (x' ++ x) (group im n) (y ++ y') Hfit);
      [|exact D].
    rewrite Hs at 1. now rewrite <- !app_assoc. }
  rewrite (W 3%nat D3), (W 4%nat D4). reflexivity.
Qed.

(** What the loop returns are the records of the matches whose identifier
    is met for the first time, after those it was started with. *)
Lemma extract_loop_spec html ms : forall seen_ids listings out,
  extract_loop html ms seen_ids listings = Ok out ->
  exists records,
    out = listings ++ records
    /\ Forall2 (fun m d => listing_of_match html m = Ok d)
         (first_by_key match_id (unseen match_id seen_ids ms)) records.
Proof.
  induction ms as [|m ms IH]; intros seen_ids listings out H.
  - exists []. simpl in H. inversion H. rewrite app_nil_r. auto.
  - cbn [extract_loop] in H. unfold unseen. cbn [filter]. fold (match_id m).
    fold (match_id m) in H.
    destruct (existsb (str_eqb (match_id m)) seen_ids) eqn:S; cbn [negb].
    + apply IH. exact H.
    + destruct (listing_of_match html m) as [d|] eqn:Hd; [|discriminate H].
      cbn [bind first_by_key] in *.
      destruct (IH _ _ _ H) as (records & -> & F).
      exists (d :: records). rewrite <- app_assoc. split; [reflexivity|].
      constructor; [exact Hd|].
      fold (unseen match_id seen_ids ms).
      rewrite <- first_by_key_filter, <- unseen_cons. exact F.
Qed.

(** The loop raises, a ValueError, exactly when the image of a match whose
    identifier is met for the first time does not fit. *)
Lemma extract_loop_outcome html ms : forall seen_ids listings,
  if forallb (image_size_fits html)
       (first_by_key match_id (unseen match_id seen_ids ms))
  then exists out, extract_loop html ms seen_ids listings = Ok out
  else extract_loop html ms seen_ids listings = Raise ValueError.
Proof.
  induction ms as [|m ms IH]; intros seen_ids listings.
  - simpl. eauto.
  - cbn [extract_loop]. unfold unseen. cbn [filter]. fold (match_id m).
    destruct (existsb (str_eqb (match_id m)) seen_ids) eqn:S; cbn [negb].
    + apply IH.
    + cbn [first_by_key forallb].
      pose proof (listing_of_match_outcome html m) as Hm.
      destruct (image_size_fits html m); cbn [andb].
      * destruct Hm as (d & ->). cbn [bind].
        fold (unseen match_id seen_ids ms).
        rewrite <- first_by_key_filter, <- unseen_cons. apply IH.
      * rewrite Hm. reflexivity.
Qed.

Lemma records_ids html ms records :
  Forall2 (fun m d => listing_of_match html m = Ok d) ms records ->
  map record_id records = map (fun i => Some (VStr i)) (map match_id ms).
Proof.
  induction 1 as [|m d ms records H _ IH]; simpl; auto.
  destruct (listing_of_match_fields html m d H) as (Hid & _).
  unfold record_id at 1. rewrite Hid, IH. reflexivity.
Qed.

(** What the extractor returns are the records of the matches whose
    identifier is met for the first time. *)
Lemma extract_listings_records html listings :
  _extract_listings html = Ok listings ->
  Forall2 (fun m d => listing_of_match html m = Ok d)
    (first_by_key match_id (finditer listing_pattern html)) listings.
Proof.
  unfold _extract_listings. intros H.
  destruct (extract_loop_spec html _ _ _ _ H) as (records & -> & F).
  rewrite unseen_nil in F. exact F.
Qed.

(** The extractor raises, a ValueError, exactly when the image of a match
    whose identifier is met for the first time does not fit. *)
Lemma extract_listings_outcome html :
  if forallb (image_size_fits html)
       (first_by_key match_id (finditer listing_pattern html))
  then exists listings, _extract_listings html = Ok listings
  else _extract_listings html = Raise ValueError.
Proof.
  unfold _extract_listings.
  pose proof (extract_loop_outcome html (finditer listing_pattern html) [] [])
    as H.
  rewrite unseen_nil in H. exact H.
Qed.

(** On a page whose runs of digits are within the limit the extractor
    returns. *)
Lemma extract_listings_returns html :
  digit_runs_fit html -> exists listings, _extract_listings html = Ok listings.
Proof.
  intros Hfit. pose proof (extract_listings_outcome html) as H.
  replace (forallb _ _) with true in H; [exact H|].
  symmetry. apply forallb_forall. intros m _.
  now apply digit_runs_fit_image.
Qed.

(** C1.  The extractor does not return for every HTML input: it raises a
    ValueError exactly when the image of an anchor match whose identifier
    is met for the first time has a height or a width beyond the digit
    limit of int(), so it returns on every page whose runs of digits are
    within that limit.  Whenever it returns, with ids the identifiers of
    the anchor matches in the order they are found (k distinct ones, d
    repeats), it returns exactly k records: their identifiers are the
    distinct identifiers in the order of their first occurrence, each
    exactly once, and each record is the one built from the first match of
    its identifier; a later match of the same identifier contributes
    nothing. *)
Theorem extract_listings_dedup html :
  let ms := finditer listing_pattern html in
  let ids := map match_id ms in
  ((exists listings, _extract_listings html = Ok listings)
   <-> forallb (image_size_fits html) (first_by_key match_id ms) = true)
  /\ (digit_runs_fit html ->
      exists listings, _extract_listings html = Ok listings)
  /\ (forall listings,
        _extract_listings html = Ok listings ->
        map record_id listings
        = map (fun i => Some (VStr i)) (first_occurrences ids)
        /\ NoDup (map record_id listings)
        /\ List.length listings
           = List.length (nodup (list_eq_dec ascii_dec) ids)
        /\ Forall2 (fun m d => listing_of_match html m = Ok d)
             (first_by_key match_id ms) listings).
Proof.
  intros ms ids. split; [|split].
  - pose proof (extract_listings_outcome html) as H. fold ms in H.
    destruct (forallb (image_size_fits html) (first_by_key match_id ms)).
    + tauto.
    + split; [|discriminate]. intros (listings & E). congruence.
  - apply extract_listings_returns.
  - intros records E.
    pose proof (extract_listings_records html records E) as F. fold ms in F.
    assert (I : map record_id records
                = map (fun i => Some (VStr i)) (first_occurrences ids)).
    { rewrite (records_ids _ _ _ F), first_by_key_keys. reflexivity. }
    split; [exact I|]. split; [|split].
    + rewrite I. apply Finite.Injective_map_NoDup.
      * intros a b H. congruence.
      * apply first_occurrences_NoDup.
    + rewrite <- first_occurrences_length.
      rewrite <- (length_map record_id), I, length_map. reflexivity.
    + exact F.
Qed.

(** Three anchors, the third a repeat of the first: the page has no long
    run of digits, the extractor returns, and the identifiers of its records
    are 123 and 456. *)
Lemma extract_listings_dedup_witness :
  let html :=
    Q "{'type':'realestate','id':'123','main_search_key':'x','heading':'Flat','location':'Oslo'}"
    ++ Q "{'type':'realestate','id':'456','main_search_key':'x','heading':'House','location':''}"
    ++ Q "{'type':'realestate','id':'123','main_search_key':'y','heading':'Other','location':'Bergen'}" in
  digit_runs_fit html
  /\ exists listings,
       _extract_listings html = Ok listings
       /\ map record_id listings
          = [Some (VStr (L "123")); Some (VStr (L "456"))].
Proof.
  intros html.
  assert (Hfit : digit_runs_fit html) by (vm_compute; discriminate).
  split; [exact Hfit|].
  destruct (extract_listings_dedup html) as (_ & R & P).
  destruct (R Hfit) as (listings & E).
  exists listings. split; [exact E|].
  destruct (P listings E) as (I & _). rewrite I. vm_compute. reflexivity.
Defined.

(** A page of two anchors in which the image of the first has a height of
    4301 digits: the extractor raises ValueError. *)
Lemma extract_listings_raises_on_long_height :
  _extract_listings
    (Q "{'type':'realestate','id':'1','main_search_key':'k','heading':'Flat','location':'Oslo','image':{'url':'u.jpg','path':'p','height':"
     ++ repeat "7"%char 4301
     ++ Q ",'width':800}}"
     ++ fragment (L "2") (L "k") (L "House") (L "Oslo"))
  = Raise ValueError.
Proof.
  match goal with |- _extract_listings ?html = _ =>
    pose proof (extract_listings_outcome html) as H
  end.
  match type of H with (if ?b then _ else _) =>
    replace b with false in H by (vm_compute; reflexivity)
  end.
  exact H.
Qed.

(** Three anchors, the third a repeat of the first with another heading:
    two records, 123 then 456, and the heading of 123 is the first one. *)
Example extract_listings_dedup_example :
  let html :=
    Q "{'type':'realestate','id':'123','main_search_key':'x','heading':'Flat','location':'Oslo'}"
    ++ Q "{'type':'realestate','id':'456','main_search_key':'x','heading':'House','location':''}"
    ++ Q "{'type':'realestate','id':'123','main_search_key':'y','heading':'Other','location':'Bergen'}" in
  exists a b,
    _extract_listings html = Ok [a; b]
    /\ dict_find a (L "id") = Some (VStr (L "123"))
    /\ dict_find a (L "heading") = Some (VStr (L "Flat"))
    /\ dict_find b (L "id") = Some (VStr (L "456")).
Proof.
  cbv zeta. eexists. eexists. split; [vm_compute; reflexivity|].
  repeat split.
Qed.

(* ================================================================== *)
(** * Fragments with an empty heading *)
(* ================================================================== *)

(** Where a match of [finditer] starts, the pattern matches. *)
Lemma finditer_from_start r s : forall pos skip m,
  In m (finditer_from r s pos skip) ->
  exists i, m_start m = (pos + i)%nat /\ match_at r (skipn i s) <> None.
Proof.
  induction s as [|c s IH]; intros pos skip m H; simpl in H; [easy|].
  assert (Later : forall sk, In m (finditer_from r s (S pos) sk) ->
            exists i, m_start m = (pos + i)%nat
                      /\ match_at r (skipn i (c :: s)) <> None).
  { intros sk Hin. destruct (IH _ _ _ Hin) as (i & Hi & Hm).
    exists (S i). split; [lia|exact Hm]. }
  destruct skip as [|k]; [|eauto].
  destruct (match_at r (c :: s)) as [[rest g]|] eqn:E; [|eauto].
  destruct H as [<-|H]; [|eauto].
  exists 0%nat. cbn [skipn mk_match m_start]. split; [lia|]. now rewrite E.
Qed.

(** Two texts cut at the same literal, which starts with a character that
    neither of the pieces before it holds, are cut at the same place. *)
Lemma app_split_unique (q : ascii) (l a b x y : str) :
  hd_error l = Some q -> ~ In q a -> ~ In q b ->
  a ++ l ++ x = b ++ l ++ y -> a = b /\ x = y.
Proof.
  intros Hl. destruct l as [|q' l]; [discriminate|].
  inversion Hl; subst q'. clear Hl. revert b.
  induction a as [|c a IH]; intros [|d b] Ha Hb H; simpl in *.
  - split; [reflexivity|]. inversion H. eapply app_inv_head; eauto.
  - inversion H; subst. tauto.
  - inversion H; subst. tauto.
  - inversion H; subst. destruct (IH b) as (-> & ->); auto.
Qed.

Lemma forallb_not_In p (t : str) q :
  forallb (mem p) t = true -> mem p q = false -> ~ In q t.
Proof.
  intros Ht Hq Hin. rewrite forallb_forall in Ht.
  apply Ht in Hin. congruence.
Qed.

(** The anchor does not match at a fragment whose heading is empty. *)
Lemma no_match_at_empty_heading id key location post :
  ~ In dq id -> ~ In dq key ->
  match_at listing_pattern (fragment id key [] location ++ post) = None.
Proof.
  intros Hid Hkey.
  destruct (match_at listing_pattern _) as [[rest g]|] eqn:E; [|reflexivity].
  exfalso. apply match_at_sound in E as (t & Ht & M).
  unfold listing_pattern in M. inv_matches.
  unfold fragment in Ht. repeat rewrite <- app_assoc in Ht.
  apply app_inv_head in Ht.
  match goal with
  | D : forallb (mem Digit) ?d = true |- _ =>
      assert (Hd : ~ In dq d) by (eapply forallb_not_In; eauto)
  end.
  apply (app_split_unique dq) in Ht as (<- & Ht); auto.
  match goal with
  | K : forallb (mem not_quote) ?k = true,
    H : key ++ _ = ?k ++ _ |- _ =>
      assert (Hk : ~ In dq k) by (eapply forallb_not_In; eauto);
      apply (app_split_unique dq) in H as (<- & H'); auto
  end.
  match goal with
  | N : ?h <> [], K : forallb (mem not_quote) ?h = true,
    H : [] ++ _ = ?h ++ _ |- _ =>
      assert (Hh : ~ In dq h) by (eapply forallb_not_In; eauto);
      apply (app_split_unique dq) in H as (E & _); auto
  end.
Qed.

Lemma skipn_app_exact (a b : str) : skipn (len a) (a ++ b) = b.
Proof. unfold len. induction a; simpl; auto. Qed.

(** Every record the extractor returns has a heading of at least one
    character. *)
Lemma extract_listings_heading html listings d :
  _extract_listings html = Ok listings -> In d listings ->
  exists h, dict_find d (L "heading") = Some (VStr h) /\ h <> [].
Proof.
  intros E Hd.
  pose proof (extract_listings_records html listings E) as F.
  assert (G : exists m, In m (first_by_key match_id
                                (finditer listing_pattern html))
                        /\ listing_of_match html m = Ok d).
  { clear E. induction F as [|m d' ms ds H _ IH]; [easy|].
    destruct Hd as [->|Hd].
    - exists m. split; [now left|exact H].
    - destruct (IH Hd) as (m' & Hin & Hm'). exists m'. split; [now right|auto]. }
  destruct G as (m & Hin & Hm).
  apply first_by_key_incl, finditer_sound, listing_pattern_groups in Hin.
  destruct Hin as (_ & _ & Hh).
  destruct (listing_of_match_fields html m d Hm) as (_ & Hhead & _).
  exists (group m 3). auto.
Qed.

(** C10.  A fragment whose heading field is the empty string is never
    returned: no anchor match starts where such a fragment stands (its
    identifier and search key being serialized without a double quote
    inside), and every record that is returned has a heading of at least
    one character.  The location field, for its part, may be empty. *)
Theorem empty_heading_never_extracted html :
  (forall pre id key location post,
      html = pre ++ fragment id key [] location ++ post ->
      ~ In dq id -> ~ In dq key ->
      forall m, In m (finditer listing_pattern html) -> m_start m <> len pre)
  /\ (forall listings d,
        _extract_listings html = Ok listings -> In d listings ->
        exists h, dict_find d (L "heading") = Some (VStr h) /\ h <> [])
  /\ (exists d,
        _extract_listings (fragment (L "1") (L "k") (L "Flat") []) = Ok [d]
        /\ dict_find d (L "location") = Some (VStr [])).
Proof.
  split; [|split].
  - intros pre id key location post -> Hid Hkey m Hm Hstart.
    apply finditer_from_start in Hm as (i & Hi & Hmatch).
    simpl in Hi. rewrite Hi in Hstart. subst i.
    rewrite Hstart, skipn_app_exact in Hmatch.
    apply Hmatch. now apply no_match_at_empty_heading.
  - apply extract_listings_heading.
  - eexists. split; [vm_compute; reflexivity|]. reflexivity.
Qed.

(** A page with one fragment whose heading is empty and one that has a
    heading: only the second is returned. *)
Lemma empty_heading_never_extracted_witness :
  let html := fragment (L "9") (L "k") [] (L "Oslo")
              ++ fragment (L "7") (L "k") (L "Flat") (L "Oslo") in
  (forall m, In m (finditer listing_pattern html) -> m_start m <> len [])
  /\ (exists d, _extract_listings html = Ok [d]
                /\ dict_find d (L "id") = Some (VStr (L "7"))).
Proof.
  intros html. split.
  - destruct (empty_heading_never_extracted html) as (H & _).
    apply (H [] (L "9") (L "k") (L "Oslo")
             (fragment (L "7") (L "k") (L "Flat") (L "Oslo"))).
    + reflexivity.
    + vm_compute. intuition discriminate.
    + vm_compute. intuition discriminate.
  - eexists. split; [vm_compute; reflexivity|]. reflexivity.
Defined.

(* ================================================================== *)
(** * More on the URL builder *)
(* ================================================================== *)

Lemma dict_find_app (a b : dict) k :
  dict_find (a ++ b) k
  = match dict_find a k with Some v => Some v | None => dict_find b k end.
Proof.
  induction a as [|[k0 v0] a IH]; simpl; auto.
  destruct (str_eqb k0 k); auto.
Qed.

Lemma dict_find_entry_other filters k k' :
  str_eqb k k' = false -> dict_find (entry filters k) k' = None.
Proof.
  intros H. unfold entry. destruct (truthy _); cbn [dict_find]; auto.
  now rewrite H.
Qed.

Lemma dict_find_page_entry_other page k' :
  str_eqb (L "page") k' = false -> dict_find (page_entry page) k' = None.
Proof.
  intros H. unfold page_entry. destruct (page >? 1); cbn [dict_find]; auto.
  now rewrite H.
Qed.

Lemma dict_find_location_entry_other filters k' :
  str_eqb (L "location") k' = false ->
  dict_find (location_entry filters) k' = None.
Proof.
  intros H. unfold location_entry. destruct (truthy _); auto.
  destruct (dict_get filters (L "location")); cbn [dict_find]; auto;
    now rewrite H.
Qed.

Lemma copy_if_set_append filters k params :
  dict_find params k = None ->
  copy_if_set filters k params = params ++ entry filters k.
Proof.
  intros H. unfold copy_if_set, entry. destruct (truthy _).
  - now apply dict_set_fresh.
  - now rewrite app_nil_r.
Qed.

Lemma copy_location_append filters params :
  dict_find params (L "location") = None ->
  copy_location filters params = params ++ location_entry filters.
Proof.
  intros H. unfold copy_location, location_entry. destruct (truthy _).
  - destruct (dict_get filters (L "location"));
      try (now rewrite app_nil_r); now apply dict_set_fresh.
  - now rewrite app_nil_r.
Qed.

Ltac fresh_key :=
  repeat rewrite dict_find_app;
  repeat (rewrite dict_find_entry_other by reflexivity);
  rewrite ?dict_find_page_entry_other, ?dict_find_location_entry_other
    by reflexivity;
  reflexivity.

(** The parameters are the entries of the truthy filters in the order the
    code reads them: every assignment to [params] adds a new key. *)
Lemma build_params_entries search_type page filters :
  build_params search_type page filters
  = page_entry page ++ location_entry filters
    ++ entry filters (L "price_from") ++ entry filters (L "price_to")
    ++ entry filters (L "area_from") ++ entry filters (L "area_to")
    ++ entry filters (L "no_of_bedrooms_from")
    ++ entry filters (L "no_of_bedrooms_to")
    ++ entry filters (L "property_type") ++ entry filters (L "sort")
    ++ entry filters (L "published")
    ++ (if SearchType_eqb search_type LETTINGS
        then entry filters (L "rent_from") ++ entry filters (L "rent_to")
        else [])
    ++ entry filters (L "q").
Proof.
  unfold build_params.
  replace (if page >? 1 then dict_set [] (L "page") (VInt page) else [])
    with (page_entry page)
    by (unfold page_entry; destruct (page >? 1); reflexivity).
  rewrite copy_location_append by fresh_key.
  rewrite (copy_if_set_append filters (L "price_from")) by fresh_key.
  rewrite (copy_if_set_append filters (L "price_to")) by fresh_key.
  rewrite (copy_if_set_append filters (L "area_from")) by fresh_key.
  rewrite (copy_if_set_append filters (L "area_to")) by fresh_key.
  rewrite (copy_if_set_append filters (L "no_of_bedrooms_from")) by fresh_key.
  rewrite (copy_if_set_append filters (L "no_of_bedrooms_to")) by fresh_key.
  rewrite (copy_if_set_append filters (L "property_type")) by fresh_key.
  rewrite (copy_if_set_append filters (L "sort")) by fresh_key.
  rewrite (copy_if_set_append filters (L "published")) by fresh_key.
  destruct (SearchType_eqb search_type LETTINGS).
  - rewrite (copy_if_set_append filters (L "rent_from")) by fresh_key.
    rewrite (copy_if_set_append filters (L "rent_to")) by fresh_key.
    rewrite (copy_if_set_append filters (L "q")) by fresh_key.
    repeat rewrite <- app_assoc. reflexivity.
  - rewrite (copy_if_set_append filters (L "q")) by fresh_key.
    repeat rewrite <- app_assoc. reflexivity.
Qed.

Lemma dict_find_app_some (a b : dict) k v :
  dict_find (a ++ b) k = Some v ->
  dict_find a k = Some v \/ dict_find b k = Some v.
Proof. rewrite dict_find_app. destruct (dict_find a k); auto. Qed.

Lemma dict_find_entry_some filters k' k v :
  dict_find (entry filters k') k = Some v ->
  k' = k /\ v = dict_get filters k /\ truthy v = true.
Proof.
  unfold entry. destruct (truthy (dict_get filters k')) eqn:T;
    cbn [dict_find]; [|discriminate].
  destruct (str_eqb k' k) eqn:E; [|discriminate].
  apply str_eqb_eq in E. subst k'. intros H; inversion H; subst. auto.
Qed.

Lemma dict_find_location_entry_some filters k v :
  dict_find (location_entry filters) k = Some v ->
  L "location" = k /\ v = dict_get filters k /\ truthy v = true.
Proof.
  unfold location_entry.
  destruct (truthy (dict_get filters (L "location"))) eqn:T;
    [|discriminate].
  destruct (dict_get filters (L "location")) eqn:G; cbn [dict_find];
    try discriminate;
    (destruct (str_eqb (L "location") k) eqn:E; [|discriminate];
     apply str_eqb_eq in E; subst k; intros H; inversion H; subst;
     rewrite G; auto).
Qed.

(** X1.  Which parameters the builder emits: a parameter named k with value
    v is in [params] only if it is the page number of a page beyond the
    first, or k is one of the thirteen filter names the builder reads and v
    is that filter's value, unchanged and truthy.  So a filter that is
    missing or falsy (None, 0, empty text, empty list) gives no parameter,
    and a filter under any other name is dropped. *)
Theorem build_params_only_truthy search_type page filters k v :
  dict_find (build_params search_type page filters) k = Some v ->
  (k = L "page" /\ v = VInt page /\ 1 < page)
  \/ (In k filter_keys /\ v = dict_get filters k /\ truthy v = true).
Proof.
  rewrite build_params_entries. intros H.
  apply dict_find_app_some in H as [H|H].
  { left. unfold page_entry in H. destruct (page >? 1) eqn:P; [|discriminate].
    cbn [dict_find] in H. destruct (str_eqb (L "page") k) eqn:E; [|discriminate].
    apply str_eqb_eq in E. inversion H; subst. repeat split. lia. }
  right.
  apply dict_find_app_some in H as [H|H].
  { apply dict_find_location_entry_some in H as (<- & -> & T).
    repeat split; auto. now left. }
  do 9 (apply dict_find_app_some in H as [H|H];
        [ apply dict_find_entry_some in H as (<- & -> & T);
          repeat split; auto; unfold filter_keys; simpl; tauto | ]).
  apply dict_find_app_some in H as [H|H].
  { destruct (SearchType_eqb search_type LETTINGS); [|discriminate].
    apply dict_find_app_some in H as [H|H];
      apply dict_find_entry_some in H as (<- & -> & T);
      repeat split; auto; unfold filter_keys; simpl; tauto. }
  apply dict_find_entry_some in H as (<- & -> & T).
  repeat split; auto. unfold filter_keys; simpl; tauto.
Qed.

Lemma build_params_only_truthy_witness :
  dict_find (build_params HOMES 1
               [(L "price_from", VInt 0); (L "price_to", VInt 5000000);
                (L "colour", VStr (L "red"))]) (L "price_to")
    = Some (VInt 5000000)
  /\ ((L "price_to" = L "page" /\ VInt 5000000 = VInt 1 /\ 1 < 1)
      \/ (In (L "price_to") filter_keys
          /\ VInt 5000000
             = dict_get [(L "price_from", VInt 0); (L "price_to", VInt 5000000);
                         (L "colour", VStr (L "red"))] (L "price_to")
          /\ truthy (VInt 5000000) = true)).
Proof.
  split; [reflexivity|].
  apply (build_params_only_truthy HOMES 1
           [(L "price_from", VInt 0); (L "price_to", VInt 5000000);
            (L "colour", VStr (L "red"))] (L "price_to") (VInt 5000000)).
  reflexivity.
Defined.




Lemma entry_ext f1 f2 k :
  dict_find f1 k = dict_find f2 k -> entry f1 k = entry f2 k.
Proof. unfold entry, dict_get. now intros ->. Qed.

Lemma location_entry_ext f1 f2 :
  dict_find f1 (L "location") = dict_find f2 (L "location") ->
  location_entry f1 = location_entry f2.
Proof. unfold location_entry, dict_get. now intros ->. Qed.

Lemma build_params_ext search_type page f1 f2 :
  (forall k, In k filter_keys ->
     (k = L "rent_from" \/ k = L "rent_to" ->
      SearchType_eqb search_type LETTINGS = true) ->
     dict_find f1 k = dict_find f2 k) ->
  build_params search_type page f1 = build_params search_type page f2.
Proof.
  intros H. rewrite !build_params_entries.
  assert (K : forall k, In k filter_keys -> k <> L "rent_from" ->
                 k <> L "rent_to" -> dict_find f1 k = dict_find f2 k).
  { intros k Hin N1 N2. apply H; auto. intros [E|E]; congruence. }
  rewrite (location_entry_ext f1 f2)
    by (apply K; [simpl; tauto | discriminate | discriminate]).
  repeat match goal with
         | |- context [entry f1 ?k] =>
             lazymatch k with
             | L "rent_from" => fail
             | L "rent_to" => fail
             | _ => rewrite (entry_ext f1 f2 k)
                      by (apply K; [simpl; tauto | discriminate | discriminate])
             end
         end.
  destruct (SearchType_eqb search_type LETTINGS) eqn:E; [|reflexivity].
  rewrite (entry_ext f1 f2 (L "rent_from")) by (apply H; [simpl; tauto|auto]).
  rewrite (entry_ext f1 f2 (L "rent_to")) by (apply H; [simpl; tauto|auto]).
  reflexivity.
Qed.

(** X3.  rent_from and rent_to are honoured for lettings only: for any
    other category the built URL is the same whatever these two filters
    are. *)
Theorem build_search_url_rent_only_lettings search_type page filters v :
  search_type <> LETTINGS ->
  _build_search_url search_type page (dict_set filters (L "rent_from") v)
    = _build_search_url search_type page filters
  /\ _build_search_url search_type page (dict_set filters (L "rent_to") v)
     = _build_search_url search_type page filters.
Proof.
  intros Hst.
  assert (E : SearchType_eqb search_type LETTINGS = false)
    by (destruct search_type; try reflexivity; congruence).
  unfold _build_search_url.
  split;
    (rewrite (build_params_ext search_type page _ filters); [reflexivity|];
     intros k Hin Hrent;
     destruct (str_eqb (L "rent_from") k) eqn:E1;
     [ apply str_eqb_eq in E1; subst k; rewrite Hrent in E; auto; discriminate
     | ];
     destruct (str_eqb (L "rent_to") k) eqn:E2;
     [ apply str_eqb_eq in E2; subst k; rewrite Hrent in E; auto; discriminate
     | ];
     now apply dict_set_find_other).
Qed.

Lemma build_search_url_rent_only_lettings_witness :
  HOMES <> LETTINGS
  /\ _build_search_url HOMES 1
       (dict_set [(L "price_to", VInt 9000)] (L "rent_from") (VInt 5000))
     = L "https://www.finn.no/realestate/homes/search.html?price_to=9000"
  /\ _build_search_url HOMES 1
       (dict_set [(L "price_to", VInt 9000)] (L "rent_from") (VInt 5000))
     = _build_search_url HOMES 1 [(L "price_to", VInt 9000)].
Proof.
  split; [discriminate|]. split; [reflexivity|].
  apply (build_search_url_rent_only_lettings HOMES 1
           [(L "price_to", VInt 9000)] (VInt 5000)).
  discriminate.
Defined.

(** X4.  The built URL depends on the filter set only through the values
    of its keys: two filter sets that give every key the same value, for
    instance the same filters passed in another order, give the same URL. *)
Theorem build_search_url_order_independent search_type page f1 f2 :
  (forall k, dict_find f1 k = dict_find f2 k) ->
  _build_search_url search_type page f1 = _build_search_url search_type page f2.
Proof.
  intros H. unfold _build_search_url.
  rewrite (build_params_ext search_type page f1 f2); [reflexivity|].
  intros k _ _. apply H.
Qed.

Lemma build_search_url_order_independent_witness :
  (forall k, dict_find [(L "q", VStr (L "hage")); (L "sort", VStr (L "PRICE_ASC"))] k
             = dict_find [(L "sort", VStr (L "PRICE_ASC")); (L "q", VStr (L "hage"))] k)
  /\ _build_search_url HOMES 1
       [(L "q", VStr (L "hage")); (L "sort", VStr (L "PRICE_ASC"))]
     = _build_search_url HOMES 1
         [(L "sort", VStr (L "PRICE_ASC")); (L "q", VStr (L "hage"))].
Proof.
  assert (H : forall k,
             dict_find [(L "q", VStr (L "hage")); (L "sort", VStr (L "PRICE_ASC"))] k
             = dict_find [(L "sort", VStr (L "PRICE_ASC")); (L "q", VStr (L "hage"))] k).
  { intros k. cbn [dict_find].
    destruct (str_eqb (L "q") k) eqn:E1, (str_eqb (L "sort") k) eqn:E2;
      try reflexivity.
    apply str_eqb_eq in E1, E2. subst k. discriminate E2. }
  split; [exact H|].
  exact (build_search_url_order_independent HOMES 1 _ _ H).
Defined.




(* ================================================================== *)
(** * More on the count extractor *)
(* ================================================================== *)

(** X6.  The count extractor never returns a negative number, and the one
    exception it raises is ValueError; it returns 0 when neither count
    pattern is in the page.  Where the Du finner phrase is not found, it
    fails only on a number beyond the digit limit of int(): with a match of
    the second pattern it returns exactly when the digits captured are
    within the limit, so a page without the phrase whose runs of digits are
    all within the limit always gets a count. *)
Theorem extract_total_count_outcomes html :
  (forall z, _extract_total_count html = Ok z -> 0 <= z)
  /\ (forall e, _extract_total_count html = Raise e -> e = ValueError)
  /\ (Re.search count_pattern html = None ->
      forall m, Re.search count_pattern_alt html = Some m ->
      (exists z, _extract_total_count html = Ok z)
      <-> within_int_limit (group m 1) = true)
  /\ (Re.search count_pattern html = None -> digit_runs_fit html ->
      exists z, _extract_total_count html = Ok z)
  /\ (Re.search count_pattern html = None ->
      Re.search count_pattern_alt html = None ->
      _extract_total_count html = Ok 0).
Proof.
  split; [|split; [|split; [|split]]].
  - intros z. apply extract_total_count_nonneg.
  - intros e. apply extract_total_count_raises.
  - intros H1 m H2. unfold _extract_total_count. rewrite H1, H2.
    destruct (count_pattern_alt_group _ _ H2) as (Hne & Hd).
    rewrite (int_of_digits_iff _ Hne Hd). unfold within_int_limit.
    symmetry. apply Z.leb_le.
  - apply extract_total_count_alt_ok.
  - apply extract_total_count_no_signal.
Qed.

Lemma extract_total_count_outcomes_witness :
  Re.search count_pattern (L "<p>12 Boliger</p>") = None
  /\ digit_runs_fit (L "<p>12 Boliger</p>")
  /\ _extract_total_count (L "<p>12 Boliger</p>") = Ok 12
  /\ _extract_total_count [] = Ok 0
  /\ exists z, _extract_total_count (L "<p>12 Boliger</p>") = Ok z.
Proof.
  split; [reflexivity|]. split; [vm_compute; discriminate|].
  split; [reflexivity|]. split; [reflexivity|].
  destruct (extract_total_count_outcomes (L "<p>12 Boliger</p>"))
    as (_ & _ & _ & H & _).
  apply H; [reflexivity|vm_compute; discriminate].
Defined.

Lemma count_char_class u :
  forallb count_char u = true -> forallb (mem (Or Space Digit)) u = true.
Proof.
  induction u as [|c u IH]; cbn [forallb]; auto.
  intros H. apply andb_true_iff in H as [Hc Hu]. rewrite (IH Hu).
  rewrite andb_true_r. cbn [mem]. unfold count_char in Hc.
  destruct (isdigit c) eqn:D; [now rewrite orb_true_r|].
  cbn [orb] in Hc. apply orb_true_iff in Hc as [E|E];
    apply Ascii.eqb_eq in E; subst c; reflexivity.
Qed.

Lemma strip_separators u :
  forallb count_char u = true ->
  replace_with_empty nbsp (replace_with_empty " " u) = filter isdigit u.
Proof.
  unfold replace_with_empty.
  induction u as [|c u IH]; simpl; auto.
  intros H. apply andb_true_iff in H as [Hc Hu]. specialize (IH Hu).
  unfold count_char in Hc.
  destruct (isdigit c) eqn:D.
  - destruct (isdigit_facts _ D) as (_ & _ & _ & _ & Hsp & Hnb & _).
    rewrite Hsp. simpl. rewrite Hnb. simpl. now rewrite IH.
  - simpl in Hc. apply orb_true_iff in Hc as [E|E];
      apply Ascii.eqb_eq in E; subst c; simpl; exact IH.
Qed.

Lemma forallb_filter_same {A} (f : A -> bool) l :
  forallb f (filter f l) = true.
Proof.
  induction l as [|a l IH]; simpl; auto.
  destruct (f a) eqn:F; simpl; rewrite ?F; auto.
Qed.

(** X7.  The Du finner phrase in general: when the first place where
    Du finner is followed by a digit has, after that digit, only digits,
    blanks and non-breaking spaces up to a character that is neither a digit
    nor white space, the outcome is that of int() on the digits alone: the
    number they write when there are at most 4300 of them, and a ValueError
    when there are more. *)
Theorem extract_total_count_du_finner pre c u rest :
  Re.search count_pattern pre = None ->
  isdigit c = true ->
  forallb count_char u = true ->
  stops (Or Space Digit) rest = true ->
  let html := pre ++ L "Du finner " ++ c :: u ++ rest in
  let digits := c :: filter isdigit u in
  _extract_total_count html = int digits
  /\ (Z.of_nat (len digits) <= int_max_str_digits ->
      exists z, _extract_total_count html = Ok z /\ 0 <= z)
  /\ (int_max_str_digits < Z.of_nat (len digits) ->
      _extract_total_count html = Raise ValueError).
Proof.
  intros Hpre Hc Hu Hrest html digits.
  assert (D : forallb isdigit digits = true).
  { unfold digits. simpl. rewrite Hc. apply forallb_filter_same. }
  assert (E : _extract_total_count html = int digits).
  { unfold html, _extract_total_count, Re.search.
    change (pre ++ L "Du finner " ++ c :: u ++ rest)
      with (pre ++ "D"%char :: L "u finner " ++ c :: u ++ rest).
    rewrite search_from_count_skip by exact Hpre.
    cbn [search_from].
    change ("D"%char :: L "u finner " ++ c :: u ++ rest)
      with (L "Du finner " ++ c :: u ++ rest).
    rewrite match_at_count_pattern_greedy;
      [ | assumption | now apply count_char_class | assumption].
    unfold group, mk_match. cbn [m_groups lookup Nat.eqb].
    rewrite strip_separators
      by (simpl; rewrite Hu; unfold count_char; now rewrite Hc).
    unfold digits. simpl. rewrite Hc. reflexivity. }
  split; [exact E|]. rewrite E. split.
  - intros Hlen. apply int_of_digits; [discriminate|exact D|exact Hlen].
  - intros Hlen. apply int_of_long_digits; [exact D|exact Hlen].
Qed.

Lemma extract_total_count_du_finner_witness :
  Re.search count_pattern (L "<meta content=") = None
  /\ isdigit "2" = true
  /\ forallb count_char (L "5 " ++ [nbsp] ++ L "310") = true
  /\ stops (Or Space Digit) (L "boliger til salgs") = true
  /\ Z.of_nat (len ("2"%char :: filter isdigit (L "5 " ++ [nbsp] ++ L "310")))
     <= int_max_str_digits
  /\ exists z,
       _extract_total_count
         (L "<meta content=" ++ L "Du finner " ++ "2"%char
          :: (L "5 " ++ [nbsp] ++ L "310") ++ L "boliger til salgs") = Ok z
       /\ 0 <= z.
Proof.
  split; [reflexivity|]. split; [reflexivity|]. split; [reflexivity|].
  split; [reflexivity|]. split; [vm_compute; discriminate|].
  destruct (extract_total_count_du_finner (L "<meta content=") "2"
              (L "5 " ++ [nbsp] ++ L "310") (L "boliger til salgs"))
    as (_ & H & _); try reflexivity.
  apply H. vm_compute. discriminate.
Defined.

(* ================================================================== *)
(** * More on the fragment extractor *)
(* ================================================================== *)

Lemma listing_pattern_fields m :
  match_of listing_pattern m ->
  (group m 1 <> [] /\ forallb isdigit (group m 1) = true)
  /\ (group m 2 <> [] /\ forallb (mem not_quote) (group m 2) = true)
  /\ (group m 3 <> [] /\ forallb (mem not_quote) (group m 3) = true)
  /\ forallb (mem not_quote) (group m 4) = true.
Proof.
  intros (t & M). unfold listing_pattern in M. inv_matches.
  unfold group.
  match goal with H : _ = m_groups m |- _ => rewrite <- H end.
  cbn. auto 10.
Qed.

Lemma image_pattern_fields chunk im :
  Re.search image_pattern chunk = Some im ->
  group im 1 <> []
  /\ (group im 3 <> [] /\ forallb isdigit (group im 3) = true)
  /\ (group im 4 <> [] /\ forallb isdigit (group im 4) = true).
Proof.
  intros H. apply search_sound in H as (t & M).
  unfold image_pattern in M. inv_matches.
  unfold group.
  match goal with H : _ = m_groups im |- _ => rewrite <- H end.
  cbn. auto.
Qed.

(** Every flag is a text of at least one character. *)
Lemma findall_flag_nonempty s :
  Forall (fun f => f <> []) (findall flag_pattern s).
Proof.
  unfold findall. apply Forall_forall. intros f Hf.
  apply in_map_iff in Hf as (m & <- & Hm).
  apply finditer_sound in Hm as (t & M).
  unfold flag_pattern in M. inv_matches.
  unfold group.
  match goal with H : _ = m_groups m |- _ => rewrite <- H end.
  cbn. assumption.
Qed.

Lemma listing_of_match_shape html m d :
  match_of listing_pattern m ->
  listing_of_match html m = Ok d -> record_shape d.
Proof.
  intros Hm H.
  destruct (listing_pattern_fields m Hm)
    as ((N1 & D1) & (N2 & _) & (N3 & _) & _).
  unfold listing_of_match in H. revert H.
  set (chunk := slice html _ _).
  destruct (Re.search image_pattern chunk) as [im|] eqn:I.
  - destruct (image_pattern_fields _ _ I) as (U & (N3' & D3) & (N4 & D4)).
    destruct (int (group im 3)) as [h|] eqn:E3; [|discriminate].
    destruct (int (group im 4)) as [w|] eqn:E4; [|discriminate].
    pose proof (int_run_nonneg _ _ N3' D3 E3) as Hh.
    pose proof (int_run_nonneg _ _ N4 D4 E4) as Hw.
    cbn [bind].
    destruct (Re.search flags_pattern chunk) as [fm|]; intros H;
      inversion H; subst d; clear H.
    + exists (group m 1), (group m 2), (group m 3), (group m 4),
        (findall flag_pattern (group fm 1)).
      repeat split; auto using findall_flag_nonempty.
      right. exists (group im 1), (group im 2), h, w. repeat split; auto.
    + exists (group m 1), (group m 2), (group m 3), (group m 4), [].
      repeat split; auto.
      right. exists (group im 1), (group im 2), h, w. repeat split; auto.
  - cbn [bind].
    destruct (Re.search flags_pattern chunk) as [fm|]; intros H;
      inversion H; subst d; clear H.
    + exists (group m 1), (group m 2), (group m 3), (group m 4),
        (findall flag_pattern (group fm 1)).
      repeat split; auto using findall_flag_nonempty.
    + exists (group m 1), (group m 2), (group m 3), (group m 4), [].
      repeat split; auto.
Qed.

Lemma Forall2_In_r {A B} (R : A -> B -> Prop) l1 l2 b :
  Forall2 R l1 l2 -> In b l2 -> exists a, In a l1 /\ R a b.
Proof.
  induction 1 as [|a b' l1 l2 H _ IH]; [easy|].
  intros [->|Hb].
  - exists a. split; [now left|exact H].
  - destruct (IH Hb) as (a' & Ha & Hr). exists a'. split; [now right|exact Hr].
Qed.

(** Every returned record is the record of an anchor match. *)
Lemma extract_listings_from_match html listings d :
  _extract_listings html = Ok listings -> In d listings ->
  exists m, In m (finditer listing_pattern html)
            /\ listing_of_match html m = Ok d.
Proof.
  intros E Hd.
  pose proof (extract_listings_records html listings E) as F.
  destruct (Forall2_In_r _ _ _ _ F Hd) as (m & Hin & Hm).
  exists m. split; [|exact Hm].
  now apply (first_by_key_incl match_id).
Qed.

Lemma extract_listings_record_shape_aux html listings d :
  _extract_listings html = Ok listings -> In d listings -> record_shape d.
Proof.
  intros E Hd.
  destruct (extract_listings_from_match _ _ _ E Hd) as (m & Hin & Hm).
  eapply listing_of_match_shape; eauto.
  now apply finditer_sound in Hin.
Qed.

(** X8.  The shape of every record the extractor returns: the identifier
    is a non-empty run of digits, the search key and the heading are
    non-empty texts, the location is a text, the flags entry is always
    there and lists non-empty texts, and the image entry, when there is
    one, is a dict of url, path, height and width with a non-empty url and
    non-negative sizes. *)
Theorem extract_listings_record_shape html listings d :
  _extract_listings html = Ok listings -> In d listings -> record_shape d.
Proof.
  apply extract_listings_record_shape_aux.
Qed.

Lemma extract_listings_record_shape_witness :
  let html :=
    Q "{'type':'realestate','id':'42','main_search_key':'k','heading':'Flat','location':'Oslo','image':{'url':'u.jpg','path':'p','height':600,'width':800},'flags':['private']}" in
  exists d, _extract_listings html = Ok [d] /\ In d [d] /\ record_shape d.
Proof.
  intros html.
  destruct (_extract_listings html) as [[|d [|? ?]]|] eqn:E;
    try (vm_compute in E; discriminate E).
  exists d. split; [reflexivity|]. split; [now left|].
  apply (extract_listings_record_shape html [d] d E). now left.
Defined.

(** Where [find_from] finds nothing the text starts nowhere with [sub]. *)
Lemma find_from_none s sub : forall pos,
  find_from s sub pos = None ->
  forall i, startswith (skipn i s) sub = false.
Proof.
  induction s as [|c s IH]; intros pos H i; cbn [find_from] in H.
  - destruct (startswith [] sub) eqn:E; [discriminate H|].
    destruct i; exact E.
  - destruct (startswith (c :: s) sub) eqn:E; [discriminate H|].
    destruct i as [|i]; [exact E|]. cbn [skipn]. eapply IH; eauto.
Qed.

Lemma startswith_app s p : startswith (p ++ s) p = true.
Proof.
  induction p as [|a p IH]; cbn [startswith app].
  - now destruct s.
  - now rewrite Ascii.eqb_refl, IH.
Qed.

(** X9.  A page in which the text with which every anchor starts does not
    occur, the empty page for one, gives no record at all, and no error. *)
Theorem extract_listings_no_anchor html :
  contains html anchor_prefix = false -> _extract_listings html = Ok [].
Proof.
  intros H. unfold _extract_listings.
  assert (N : finditer listing_pattern html = []).
  { destruct (finditer listing_pattern html) as [|m ms] eqn:E; [reflexivity|].
    exfalso.
    assert (Hin : In m (finditer listing_pattern html))
      by (rewrite E; now left).
    apply finditer_from_start in Hin as (i & _ & Hm).
    destruct (match_at listing_pattern (skipn i html)) as [[rest g]|] eqn:M;
      [|congruence].
    apply match_at_sound in M as (t & Ht & Mt).
    unfold listing_pattern in Mt. inv_matches.
    unfold contains in H.
    destruct (find_from html anchor_prefix 0) eqn:F; [discriminate|].
    pose proof (find_from_none _ _ _ F i) as S.
    rewrite Ht in S.
    change (Q "{'type':'realestate','id':'")
      with (anchor_prefix ++ Q ",'id':'") in S.
    rewrite <- !app_assoc in S. rewrite startswith_app in S. discriminate. }
  rewrite N. reflexivity.
Qed.

Lemma extract_listings_no_anchor_witness :
  contains (L "<html><body>Ingen treff</body></html>") anchor_prefix = false
  /\ _extract_listings (L "<html><body>Ingen treff</body></html>") = Ok []
  /\ _extract_listings [] = Ok [].
Proof.
  split; [reflexivity|].
  split; [|reflexivity].
  apply (extract_listings_no_anchor (L "<html><body>Ingen treff</body></html>")).
  reflexivity.
Defined.

Lemma find_from_eq s sub pos :
  find_from s sub pos
  = if startswith s sub then Some pos
    else match s with
         | [] => None
         | _ :: s' => find_from s' sub (S pos)
         end.
Proof. destruct s; reflexivity. Qed.

(** Whether a text starts with [p] is settled by its first [len p]
    characters. *)
Lemma startswith_app_long u b : forall p,
  (len p <= len u)%nat -> startswith (u ++ b) p = startswith u p.
Proof.
  unfold len. induction u as [|c u IH]; intros [|a p] H; simpl in *;
    try reflexivity; try lia.
  - now destruct b.
  - rewrite IH by lia. reflexivity.
Qed.

(** In a text that continues with [p] after [a], the first place at which
    [p] is found lies at the end of [a] or before, and is the same whatever
    comes after that [p]. *)
Lemma find_from_up_to_anchor p b1 b2 a : forall pos,
  exists e, find_from (a ++ p ++ b1) p pos = Some e
            /\ find_from (a ++ p ++ b2) p pos = Some e
            /\ (pos <= e <= pos + len a)%nat.
Proof.
  induction a as [|c a IH]; intros pos.
  - exists pos. rewrite !find_from_eq. cbn [app].
    rewrite !startswith_app. unfold len. simpl. repeat split; lia.
  - rewrite !find_from_eq.
    assert (S1 : forall b, startswith ((c :: a) ++ p ++ b) p
                           = startswith ((c :: a) ++ p) p).
    { intros b. rewrite app_assoc. apply startswith_app_long.
      unfold len. rewrite length_app. lia. }
    rewrite (S1 b1), (S1 b2).
    destruct (startswith ((c :: a) ++ p) p).
    + exists pos. unfold len. simpl. repeat split; lia.
    + cbn [app]. destruct (IH (S pos)) as (e & E1 & E2 & He).
      exists e. unfold len in *. simpl. repeat split; auto; lia.
Qed.

(** The window of a match is the same in two pages that agree up to and
    including the start of an anchor at least ten characters after the start
    of the match. *)
Lemma window_up_to_anchor a b1 b2 (start : nat) :
  (start + 10 <= len a)%nat ->
  let window html :=
    let end_marker :=
      find html (Q "{'type':'realestate'") (Z.of_nat start + 10) in
    slice html (Z.of_nat start)
      (if end_marker =? -1 then Z.of_nat start + 2000 else end_marker) in
  window (a ++ Q "{'type':'realestate'" ++ b1)
  = window (a ++ Q "{'type':'realestate'" ++ b2).
Proof.
  intros Hs. cbv zeta.
  set (p := Q "{'type':'realestate'").
  assert (W : forall b, exists e,
             (start + 10 <= e <= len a)%nat
             /\ find_from (skipn (start + 10) a ++ p ++ b1) p (start + 10) = Some e
             /\ find_from (skipn (start + 10) a ++ p ++ b) p (start + 10) = Some e).
  { intros b.
    destruct (find_from_up_to_anchor p b1 b (skipn (start + 10) a) (start + 10))
      as (e & E1 & E2 & He).
    exists e. split; [|auto].
    unfold len in *. rewrite length_skipn in He. lia. }
  assert (F : forall b, exists e,
             (start + 10 <= e <= len a)%nat
             /\ find (a ++ p ++ b1) p (Z.of_nat start + 10) = Z.of_nat e
             /\ find (a ++ p ++ b) p (Z.of_nat start + 10) = Z.of_nat e).
  { intros b. destruct (W b) as (e & He & E1 & E2). exists e.
    split; [exact He|].
    unfold find.
    replace (Z.to_nat (Z.of_nat start + 10)) with (start + 10)%nat by lia.
    assert (L1 : forall x, (len (a ++ p ++ x) <? start + 10)%nat = false).
    { intros x. apply Nat.ltb_ge. unfold len in *. rewrite length_app. lia. }
    assert (K : forall x, skipn (start + 10) (a ++ p ++ x)
                          = skipn (start + 10) a ++ p ++ x).
    { intros x. rewrite skipn_app.
      replace (start + 10 - List.length a)%nat with 0%nat
        by (unfold len in *; lia).
      reflexivity. }
    rewrite !L1, !K, E1, E2. auto. }
  destruct (F b2) as (e & He & -> & ->).
  replace (Z.of_nat e =? -1) with false by (symmetry; apply Z.eqb_neq; lia).
  unfold slice, clip.
  assert (G : forall x,
             firstn
               (Z.to_nat (if Z.of_nat e <? 0
                          then Z.max (Z.of_nat e + Z.of_nat (len (a ++ p ++ x))) 0
                          else Z.min (Z.of_nat e) (Z.of_nat (len (a ++ p ++ x))))
                - Z.to_nat (if Z.of_nat start <? 0
                            then Z.max (Z.of_nat start
                                        + Z.of_nat (len (a ++ p ++ x))) 0
                            else Z.min (Z.of_nat start)
                                   (Z.of_nat (len (a ++ p ++ x)))))
               (skipn
                  (Z.to_nat (if Z.of_nat start <? 0
                             then Z.max (Z.of_nat start
                                         + Z.of_nat (len (a ++ p ++ x))) 0
                             else Z.min (Z.of_nat start)
                                    (Z.of_nat (len (a ++ p ++ x)))))
                  (a ++ p ++ x))
             = firstn (e - start) (skipn start a)).
  { intros x.
    assert (La : (len a <= len (a ++ p ++ x))%nat)
      by (unfold len; rewrite length_app; lia).
    replace (Z.of_nat e <? 0) with false by (symmetry; apply Z.ltb_ge; lia).
    replace (Z.of_nat start <? 0) with false
      by (symmetry; apply Z.ltb_ge; lia).
    rewrite !Z.min_l by lia. rewrite !Nat2Z.id.
    rewrite skipn_app.
    replace (start - List.length a)%nat with 0%nat by (unfold len in *; lia).
    cbn [skipn]. rewrite firstn_app.
    replace (e - start - List.length (skipn start a))%nat with 0%nat
      by (rewrite length_skipn; unfold len in *; lia).
    cbn [firstn]. apply app_nil_r. }
  rewrite (G b1), (G b2). reflexivity.
Qed.

(** X10.  The window of a match ends where the next anchor starts: the
    record built for a match is the same in two pages that agree up to and
    including the opening text of an anchor standing at least ten
    characters after the start of the match.  Nothing that follows the
    start of the next anchor, its image and flags included, can get into
    the record. *)
Theorem listing_window_isolation a b1 b2 m :
  (m_start m + 10 <= len a)%nat ->
  listing_of_match (a ++ anchor_prefix ++ b1) m
  = listing_of_match (a ++ anchor_prefix ++ b2) m.
Proof.
  intros H. unfold listing_of_match, anchor_prefix. cbv zeta.
  pose proof (window_up_to_anchor a b1 b2 (m_start m) H) as W.
  cbv zeta in W. rewrite W. reflexivity.
Qed.

(** Two adjacent fragments, the second with an image and a flag: the
    record of the first has neither. *)
Lemma listing_window_isolation_witness :
  let a := fragment (L "123") (L "x") (L "Flat") (L "Oslo") ++ L "}" in
  let b := Q ",'id':'456','main_search_key':'x','heading':'House','location':'Bergen','image':{'url':'u','path':'p','height':1,'width':2},'flags':['private']}" in
  let m := {| m_start := 0; m_end := 0; m_groups := [(1%nat, L "123")] |} in
  (m_start m + 10 <= len a)%nat
  /\ listing_of_match (a ++ anchor_prefix ++ b) m
     = listing_of_match (a ++ anchor_prefix ++ []) m
  /\ exists d1 d2,
       _extract_listings (a ++ anchor_prefix ++ b) = Ok [d1; d2]
       /\ dict_find d1 (L "image") = None
       /\ dict_find d1 (L "flags") = Some (VList [])
       /\ dict_find d2 (L "flags") = Some (VList [VStr (L "private")]).
Proof.
  intros a b m.
  assert (H : (m_start m + 10 <= len a)%nat) by (vm_compute; lia).
  split; [exact H|]. split.
  - exact (listing_window_isolation a b [] m H).
  - eexists. eexists. split; [vm_compute; reflexivity|].
    repeat split.
Defined.

(* ================================================================== *)
(** * What a search returns *)
(* ================================================================== *)


Lemma comprehension_Forall2 {A B} (f : A -> result B) l bs :
  comprehension f l = Ok bs -> Forall2 (fun a b => f a = Ok b) l bs.
Proof.
  revert bs. induction l as [|a l IH]; intros bs H; simpl in H.
  - inversion H. constructor.
  - apply bind_ok in H as (b & Hb & H).
    apply bind_ok in H as (bs' & Hbs & H). inversion H; subst.
    constructor; auto.
Qed.





(* ================================================================== *)
(** * More on the record normalizer *)
(* ================================================================== *)

Lemma dict_find_set_unread data k v :
  ~ In k parse_keys ->
  forall k', In k' parse_keys ->
    dict_find (dict_set data k v) k' = dict_find data k'.
Proof.
  intros Hk k' Hk'. apply dict_set_find_other.
  destruct (str_eqb k k') eqn:E; [|reflexivity].
  apply str_eqb_eq in E. subst. contradiction.
Qed.

(** X12.  The normalizer reads thirteen keys of the raw record and nothing
    else: an entry under any other key, such as url, search_type or
    main_search_key, changes neither the outcome nor any field.  In
    particular the URL of the listing is never taken from the record. *)
Theorem parse_listing_ignores_other_keys data search_type k v :
  ~ In k parse_keys ->
  _parse_listing (dict_set data k v) search_type
  = _parse_listing data search_type.
Proof.
  intros Hk. pose proof (dict_find_set_unread data k v Hk) as F.
  unfold _parse_listing, dict_in, dict_item, dict_get, dict_get_or.
  repeat match goal with
         | |- context [dict_find (dict_set data k v) ?k'] =>
             rewrite (F k') by (simpl; tauto)
         end.
  reflexivity.
Qed.

Lemma parse_listing_ignores_other_keys_witness :
  ~ In (L "url") parse_keys
  /\ _parse_listing
       (dict_set [(L "id", VStr (L "123"))] (L "url")
          (VStr (L "https://example.org/x"))) HOMES
     = _parse_listing [(L "id", VStr (L "123"))] HOMES.
Proof.
  assert (H : ~ In (L "url") parse_keys).
  { unfold parse_keys. simpl. intuition discriminate. }
  split; [exact H|].
  exact (parse_listing_ignores_other_keys [(L "id", VStr (L "123"))] HOMES
           (L "url") (VStr (L "https://example.org/x")) H).
Defined.


(* ================================================================== *)
(** * More on the lazy traversal *)
(* ================================================================== *)

Section TraversalFlattening.
Variable World : Type.
Variable fetch : World -> str -> result str * World.
Variable search_type : SearchType.
Variable max_pages : option Z.
Variable filters : dict.

(** What has been searched is what has been yielded and what is pending. *)
Lemma gen_run_flattens k : forall g w,
  let r := gen_run World fetch search_type max_pages filters k g w in
  pending g ++ List.concat (map sr_items (searched_results (events_of r)))
  = yielded (events_of r) ++ pending (state_of r).
Proof.
  induction k as [|k IH]; intros g w; cbv zeta.
  - simpl. now rewrite !app_nil_r.
  - assert (S : forall p w0,
               let '(e, g1, w1) :=
                 gen_search World fetch search_type filters p w0 in
               let '(es, g2, w2) :=
                 gen_run World fetch search_type max_pages filters k g1 w1 in
               List.concat (map sr_items (searched_results (e :: es)))
               = yielded (e :: es) ++ pending g2).
    { intros p w0. unfold gen_search.
      destruct (search World fetch search_type p filters w0) as [[r|ex] w1].
      - specialize (IH (GItems p (sr_has_next_page r) (sr_items r)) w1).
        cbv zeta in IH.
        destruct (gen_run _ _ _ _ _ k _ w1) as [[es g2] w2].
        cbn [events_of state_of fst snd pending] in IH.
        cbn [searched_results map List.concat yielded]. exact IH.
      - destruct k; reflexivity. }
    destruct g as [|p hn [|listing rest]|].
    + cbn [gen_run gen_step]. specialize (S 1 w).
      destruct (gen_search World fetch search_type filters 1 w)
        as [[e g1] w1].
      destruct (gen_run _ _ _ _ _ k g1 w1) as [[es g2] w2].
      cbn [events_of state_of fst snd pending app]. exact S.
    + cbn [gen_run gen_step].
      destruct (negb hn); [destruct k; reflexivity|].
      destruct (page_limit_reached max_pages p); [destruct k; reflexivity|].
      specialize (S (p + 1) w).
      destruct (gen_search World fetch search_type filters (p + 1) w)
        as [[e g1] w1].
      destruct (gen_run _ _ _ _ _ k g1 w1) as [[es g2] w2].
      cbn [events_of state_of fst snd pending app]. exact S.
    + cbn [gen_run gen_step].
      specialize (IH (GItems p hn rest) w). cbv zeta in IH.
      destruct (gen_run _ _ _ _ _ k _ w) as [[es g2] w2].
      cbn [events_of state_of fst snd pending] in *.
      cbn [searched_results yielded]. simpl. now rewrite IH.
    + reflexivity.
Qed.
End TraversalFlattening.

(** X14.  The traversal flattens the pages and loses nothing: however far
    it is driven, the listings yielded so far followed by the ones still
    pending are the items of the pages searched so far, in order; once it
    has ended, what was yielded is exactly the concatenation of the items
    of those pages. *)
Theorem search_all_pages_flattens World fetch search_type max_pages filters
    steps w :
  let r := search_all_pages World fetch search_type max_pages filters steps w in
  List.concat (map sr_items (searched_results (events_of r)))
  = yielded (events_of r) ++ pending (state_of r)
  /\ (state_of r = GDone ->
      yielded (events_of r)
      = List.concat (map sr_items (searched_results (events_of r)))).
Proof.
  cbv zeta. unfold search_all_pages.
  pose proof (gen_run_flattens World fetch search_type max_pages filters
                steps GStart w) as H.
  cbv zeta in H. cbn [pending app] in H. split; [exact H|].
  intros D. rewrite H, D. cbn [pending]. now rewrite app_nil_r.
Qed.

Lemma search_all_pages_flattens_witness :
  let page := Ok (L "Du finner 60 boliger "
                  ++ fragment (L "1") (L "k") (L "Flat") (L "Oslo")) in
  let r := search_all_pages script scripted_fetch HOMES None [] 6
             [page; page] in
  state_of r = GDone
  /\ List.length (yielded (events_of r)) = 2%nat
  /\ yielded (events_of r)
     = List.concat (map sr_items (searched_results (events_of r))).
Proof.
  intros page r.
  assert (D : state_of r = GDone) by (vm_compute; reflexivity).
  split; [exact D|]. split; [vm_compute; reflexivity|].
  destruct (search_all_pages_flattens script scripted_fetch HOMES None [] 6
              [page; page]) as [_ H].
  exact (H D).
Defined.

(** X15.  max_pages = 0 is no limit: the test [if max_pages and ...] takes
    0 as false, so the traversal with max_pages = 0 is, step for step, the
    traversal with max_pages = None. *)
Theorem search_all_pages_zero_is_unlimited World fetch search_type filters
    steps w :
  search_all_pages World fetch search_type (Some 0) filters steps w
  = search_all_pages World fetch search_type None filters steps w.
Proof.
  unfold search_all_pages. generalize GStart. revert w.
  induction steps as [|k IH]; intros w g; [reflexivity|].
  cbn [gen_run].
  assert (E : gen_step World fetch search_type (Some 0) filters g w
              = gen_step World fetch search_type None filters g w).
  { destruct g as [|p hn [|l rest]|]; reflexivity. }
  rewrite E. destruct g; try reflexivity;
    destruct (gen_step _ _ _ None _ _ w) as [[e g'] w']; now rewrite IH.
Qed.

(* ================================================================== *)
(** * More on the detail resolver *)
(* ================================================================== *)

Lemma find_from_some s sub : forall pos e,
  find_from s sub pos = Some e ->
  exists i, startswith (skipn i s) sub = true.
Proof.
  induction s as [|c s IH]; intros pos e H; rewrite find_from_eq in H.
  - destruct (startswith [] sub) eqn:E; [|discriminate H]. now exists 0%nat.
  - destruct (startswith (c :: s) sub) eqn:E; [now exists 0%nat|].
    destruct (IH _ _ H) as (i & Hi). now exists (S i).
Qed.

(** [sub in s] says that [s] starts with [sub] somewhere. *)
Lemma contains_spec s sub :
  contains s sub = true <-> exists i, startswith (skipn i s) sub = true.
Proof.
  unfold contains. destruct (find_from s sub 0) as [e|] eqn:F; split.
  - intros _. eapply find_from_some; eauto.
  - reflexivity.
  - discriminate.
  - intros (i & Hi). rewrite (find_from_none _ _ _ F i) in Hi. discriminate.
Qed.

Lemma startswith_app_split p q : forall t,
  startswith t (p ++ q) = true -> startswith (skipn (len p) t) q = true.
Proof.
  unfold len. induction p as [|a p IH]; intros t H; [exact H|].
  destruct t as [|b t]; [discriminate H|].
  cbn [startswith app] in H. apply andb_true_iff in H as [_ H].
  cbn [List.length skipn]. now apply IH.
Qed.

(** A text that holds [p ++ q] holds [q]. *)
Lemma contains_suffix s p q :
  contains s (p ++ q) = true -> contains s q = true.
Proof.
  rewrite !contains_spec. intros (i & Hi).
  apply startswith_app_split in Hi. rewrite skipn_skipn in Hi. eauto.
Qed.

(** X16.  How the resolver tells a wrong category: the two-part test of the
    code comes down to whether the identifier occurs in the body.  After a
    successful fetch for a candidate, a body without the identifier makes
    the resolver go on to the next candidate, raising nothing; a body with
    the identifier anywhere in it is parsed as the detail page, and settles
    the call. *)
Theorem details_loop_page_test World fetch listing_id search_type rest
    w html w1 :
  fetch w (ad_url search_type listing_id) = (Ok html, w1) ->
  details_loop World fetch listing_id (search_type :: rest) w
  = if contains html listing_id
    then (bind (_parse_listing_details html listing_id search_type)
            (fun d => Ok (Some d)), w1)
    else details_loop World fetch listing_id rest w1.
Proof.
  intros F. cbn [details_loop]. unfold _make_request. rewrite F.
  destruct (contains html listing_id) eqn:C.
  - now rewrite andb_false_r.
  - destruct (contains html (L "finnkode=" ++ listing_id)) eqn:C2;
      [|reflexivity].
    apply contains_suffix in C2. congruence.
Qed.

Lemma details_loop_page_test_witness :
  scripted_fetch [Ok (L "<html>Annonsen finnes ikke</html>")]
    (ad_url LETTINGS (L "123"))
    = (Ok (L "<html>Annonsen finnes ikke</html>"), [])
  /\ details_loop script scripted_fetch (L "123") [LETTINGS; HOMES]
       [Ok (L "<html>Annonsen finnes ikke</html>")]
     = if contains (L "<html>Annonsen finnes ikke</html>") (L "123")
       then (bind (_parse_listing_details
                     (L "<html>Annonsen finnes ikke</html>") (L "123") LETTINGS)
               (fun d => Ok (Some d)), [])
       else details_loop script scripted_fetch (L "123") [HOMES] [].
Proof.
  split; [reflexivity|].
  apply (details_loop_page_test script scripted_fetch (L "123") LETTINGS
           [HOMES] [Ok (L "<html>Annonsen finnes ikke</html>")]
           (L "<html>Annonsen finnes ikke</html>") []).
  reflexivity.
Defined.

Lemma price_pattern_group html m :
  Re.search price_pattern html = Some m ->
  group m 1 <> [] /\ forallb isdigit (group m 1) = true.
Proof.
  intros H. apply search_sound in H as (t & M).
  unfold price_pattern, colon in M. inv_matches.
  unfold group.
  match goal with H : _ = m_groups m |- _ => rewrite <- H end.
  cbn. auto.
Qed.

Lemma convert_ok {A B} (f : A -> result B) x :
  (exists y, convert f x = Ok y) <->
  (forall a, x = Some a -> exists b, f a = Ok b).
Proof.
  destruct x as [a|]; cbn [convert]; split.
  - intros (y & H) a' E. inversion E; subst a'.
    destruct (f a); [eauto|discriminate H].
  - intros H. destruct (H a eq_refl) as (b & ->). cbn. eauto.
  - intros _ a E. discriminate E.
  - eauto.
Qed.

(** The price is converted exactly when its digits are within the limit
    of int(). *)
Lemma convert_price_iff html :
  (exists p, convert int (search_group price_pattern html) = Ok p)
  <-> (forall t, search_group price_pattern html = Some t ->
                 within_int_limit t = true).
Proof.
  rewrite convert_ok. unfold search_group.
  destruct (Re.search price_pattern html) as [m|] eqn:E; cbn [option_map].
  - destruct (price_pattern_group _ _ E) as (N & D).
    pose proof (int_of_digits_iff _ N D) as I.
    unfold within_int_limit. split.
    + intros H t Ht. inversion Ht; subst t.
      apply Z.leb_le, I, H. reflexivity.
    + intros H a Ha. inversion Ha; subst a.
      apply I, Z.leb_le, H. reflexivity.
  - split; intros _ t Ht; discriminate Ht.
Qed.

(** X17.  When the detail pass returns.  It returns a ListingDetails
    exactly when the page has an h1 heading the pattern matches, the
    latitude and longitude texts it captures, if any, are numbers for
    float(), and the price it captures, if any, has no more digits than
    int() converts; in every other case it raises. *)
Theorem parse_listing_details_returns_iff html listing_id search_type :
  (exists d, _parse_listing_details html listing_id search_type = Ok d)
  <-> (Re.search heading_pattern html <> None
       /\ (forall t, search_group (coordinate_pattern "latitude") html = Some t ->
                     exists f, float t = Ok f)
       /\ (forall t, search_group (coordinate_pattern "longitude") html = Some t ->
                     exists f, float t = Ok f)
       /\ (forall t, search_group price_pattern html = Some t ->
                     within_int_limit t = true)).
Proof.
  unfold _parse_listing_details.
  rewrite <- !convert_ok, <- convert_price_iff.
  split.
  - intros (d & H).
    apply bind_ok in H as (latitude & Hlat & H).
    apply bind_ok in H as (longitude & Hlng & H).
    apply bind_ok in H as (price & Hprice & H).
    split; [|repeat split; eauto].
    unfold ListingDetails_init, search_group in H. cbn in H.
    destruct (Re.search heading_pattern html); [discriminate|].
    discriminate H.
  - intros (Hh & (lat & ->) & (lng & ->) & (p & ->)). cbn [bind].
    unfold search_group at 1.
    destruct (Re.search heading_pattern html) as [m|]; [|congruence].
    cbn. eauto.
Qed.

Lemma parse_listing_details_identity html listing_id search_type d :
  _parse_listing_details html listing_id search_type = Ok d ->
  ld_id d = listing_id
  /\ ld_search_type d = SearchType_value search_type
  /\ ld_url d = ad_url search_type listing_id
  /\ ld_location d
     = join (L ", ") (nonempty (ld_address d) ++ nonempty (ld_postal_code d)
                      ++ nonempty (ld_city d))
  /\ ld_images d = map Image_of_url (findall gallery_pattern html).
Proof.
  unfold _parse_listing_details. intros H.
  apply bind_ok in H as (latitude & Hlat & H).
  apply bind_ok in H as (longitude & Hlng & H).
  apply bind_ok in H as (price_total & Hprice & H).
  unfold ListingDetails_init in H. cbn in H.
  destruct (option_map strip _) as [heading|]; [|discriminate H].
  inversion H; subst; clear H. cbn. auto.
Qed.

(** X18.  What the detail pass returns, when it returns: the identifier,
    the category and the ad URL are those of the call, not of the page; a
    field whose pattern is not in the page is None, with no placeholder;
    and the location is the address, the postal code and the city that were
    found, joined by a comma and a blank. *)
Theorem parse_listing_details_fields html listing_id search_type d :
  _parse_listing_details html listing_id search_type = Ok d ->
  (ld_id d = listing_id
   /\ ld_search_type d = SearchType_value search_type
   /\ ld_url d = ad_url search_type listing_id)
  /\ ((Re.search (quoted_field "streetAddress") html = None ->
       ld_address d = None)
      /\ (Re.search postal_pattern html = None -> ld_postal_code d = None)
      /\ (Re.search (quoted_field "addressLocality") html = None ->
          ld_city d = None)
      /\ (Re.search (coordinate_pattern "latitude") html = None ->
          ld_latitude d = None)
      /\ (Re.search (coordinate_pattern "longitude") html = None ->
          ld_longitude d = None)
      /\ (Re.search price_pattern html = None -> ld_price_total d = None)
      /\ (Re.search (quoted_field "description") html = None ->
          ld_description d = None))
  /\ ld_location d
     = join (L ", ") (nonempty (ld_address d) ++ nonempty (ld_postal_code d)
                      ++ nonempty (ld_city d)).
Proof.
  intros H.
  destruct (parse_listing_details_identity _ _ _ _ H) as (I1 & I2 & I3 & I4 & _).
  split; [auto|]. split; [|exact I4].
  eapply parse_listing_details_absent_fields; eauto.
Qed.

Lemma parse_listing_details_fields_witness :
  exists d,
    _parse_listing_details
      (Q "<h1>Flat</h1> 'streetAddress':'Gata 1', 'addressLocality':'Oslo'")
      (L "123") HOMES = Ok d
    /\ ld_postal_code d = None
    /\ ld_location d = L "Gata 1, Oslo"
    /\ ld_url d = ad_url HOMES (L "123").
Proof.
  destruct (_parse_listing_details
              (Q "<h1>Flat</h1> 'streetAddress':'Gata 1', 'addressLocality':'Oslo'")
              (L "123") HOMES) as [d|e] eqn:E; [|vm_compute in E; discriminate E].
  exists d.
  destruct (parse_listing_details_fields _ _ _ _ E)
    as ((_ & _ & U) & (_ & P & _) & Loc).
  split; [reflexivity|]. split; [apply P; reflexivity|]. split; [|exact U].
  rewrite Loc. vm_compute in E. inversion E; subst d. reflexivity.
Defined.

(** X19.  The gallery of a detail result holds only URLs of the image host
    of the site: every image has a URL that starts with
    https://images.finncdn.no and goes on by at least one character, and no
    other field set. *)
Theorem parse_listing_details_gallery html listing_id search_type d :
  _parse_listing_details html listing_id search_type = Ok d ->
  Forall (fun i =>
            exists rest,
              i = Image_of_url (L "https://images.finncdn.no" ++ rest)
              /\ rest <> [])
    (ld_images d).
Proof.
  intros H.
  destruct (parse_listing_details_identity _ _ _ _ H) as (_ & _ & _ & _ & ->).
  apply Forall_forall. intros i Hi.
  apply in_map_iff in Hi as (u & <- & Hu).
  unfold findall in Hu. apply in_map_iff in Hu as (m & <- & Hm).
  apply finditer_sound in Hm as (t & M).
  unfold gallery_pattern, colon in M. inv_matches.
  unfold group.
  match goal with H : _ = m_groups m |- _ => rewrite <- H end.
  cbn [lookup m_groups Nat.eqb]. eexists. split; [reflexivity|assumption].
Qed.

Lemma parse_listing_details_gallery_witness :
  exists d,
    _parse_listing_details
      (Q "<h1>Flat</h1> 'image':'https://images.finncdn.no/a.jpg' 'image':'https://example.org/b.jpg'")
      (L "123") HOMES = Ok d
    /\ ld_images d = [Image_of_url (L "https://images.finncdn.no/a.jpg")]
    /\ Forall (fun i =>
                 exists rest,
                   i = Image_of_url (L "https://images.finncdn.no" ++ rest)
                   /\ rest <> [])
         (ld_images d).
Proof.
  destruct (_parse_listing_details
              (Q "<h1>Flat</h1> 'image':'https://images.finncdn.no/a.jpg' 'image':'https://example.org/b.jpg'")
              (L "123") HOMES) as [d|e] eqn:E; [|vm_compute in E; discriminate E].
  exists d. split; [reflexivity|]. split.
  - vm_compute in E. inversion E; subst d. reflexivity.
  - exact (parse_listing_details_gallery _ _ _ _ E).
Defined.

Lemma details_loop_found World fetch listing_id candidates : forall w d w',
  details_loop World fetch listing_id candidates w = (Ok (Some d), w') ->
  exists search_type html,
    In search_type candidates
    /\ _parse_listing_details html listing_id search_type = Ok d.
Proof.
  induction candidates as [|st rest IH]; intros w d w' H; cbn [details_loop] in H.
  - discriminate H.
  - unfold _make_request in H.
    destruct (fetch w (ad_url st listing_id)) as [[html|e] w1].
    + destruct (negb (contains html (L "finnkode=" ++ listing_id))
                && negb (contains html listing_id)).
      * destruct (IH _ _ _ H) as (st' & html' & Hin & Hp).
        exists st', html'. split; [now right|exact Hp].
      * inversion H; subst. clear H.
        match goal with
        | H : bind ?p _ = Ok (Some d) |- _ =>
            destruct p as [d'|] eqn:P; [|discriminate H];
            cbn in H; inversion H; subst d'
        end.
        exists st, html. split; [now left|exact P].
    + destruct e;
        try (inversion H; fail);
        destruct (IH _ _ _ H) as (st' & html' & Hin & Hp);
        exists st', html'; (split; [now right|exact Hp]).
Qed.

(** X20.  What a found listing is.  When [get_listing_details] returns a
    listing, its identifier is the one asked for, and its category is
    lettings, homes or leisure, the only three the resolver tries, with the
    ad URL of that category and that identifier; listings of the other
    categories are never found. *)
Theorem get_listing_details_found World fetch listing_id w d w' :
  get_listing_details World fetch listing_id w = (Ok (Some d), w') ->
  ld_id d = listing_id
  /\ exists search_type,
       In search_type [LETTINGS; HOMES; LEISURE]
       /\ ld_search_type d = SearchType_value search_type
       /\ ld_url d = ad_url search_type listing_id.
Proof.
  unfold get_listing_details. intros H.
  apply details_loop_found in H as (st & html & Hin & Hp).
  destruct (parse_listing_details_identity _ _ _ _ Hp) as (I1 & I2 & I3 & _).
  split; [exact I1|]. exists st. auto.
Qed.

(** The lettings page does not know the listing, the homes page does. *)
Lemma get_listing_details_found_witness :
  exists d w',
    get_listing_details script scripted_fetch (L "123")
      [Ok (L "<html>Annonsen finnes ikke</html>");
       Ok (L "<h1>Flat</h1> finnkode=123")] = (Ok (Some d), w')
    /\ ld_id d = L "123"
    /\ ld_search_type d = L "homes"
    /\ exists search_type,
         In search_type [LETTINGS; HOMES; LEISURE]
         /\ ld_search_type d = SearchType_value search_type
         /\ ld_url d = ad_url search_type (L "123").
Proof.
  destruct (get_listing_details script scripted_fetch (L "123")
              [Ok (L "<html>Annonsen finnes ikke</html>");
               Ok (L "<h1>Flat</h1> finnkode=123")])
    as [[[d|]|e] w'] eqn:E; try (vm_compute in E; discriminate E).
  exists d, w'. split; [reflexivity|].
  destruct (get_listing_details_found _ _ _ _ _ _ E) as (I & S).
  split; [exact I|]. split; [|exact S].
  vm_compute in E. inversion E; subst d. reflexivity.
Defined.

(* ================================================================== *)
(** * Defaults of the record normalizer *)
(* ================================================================== *)

(** X21.  What the normalizer puts where the raw record has nothing: a
    missing heading or location becomes the empty text, missing flags or
    labels the empty list, a missing image no image, and every other
    missing optional field None. *)
Theorem parse_listing_defaults data search_type l :
  _parse_listing data search_type = Ok l ->
  (dict_find data (L "heading") = None -> lb_heading l = VStr [])
  /\ (dict_find data (L "location") = None -> lb_location l = VStr [])
  /\ (dict_find data (L "flags") = None -> lb_flags l = VList [])
  /\ (dict_find data (L "labels") = None -> lb_labels l = VList [])
  /\ (dict_find data (L "image") = None -> lb_image l = None)
  /\ (dict_find data (L "price") = None -> lb_price l = VNone)
  /\ (dict_find data (L "price_total") = None -> lb_price_total l = VNone)
  /\ (dict_find data (L "price_suggestion") = None ->
      lb_price_suggestion l = VNone)
  /\ (dict_find data (L "area") = None -> lb_area l = VNone)
  /\ (dict_find data (L "bedrooms") = None -> lb_bedrooms l = VNone)
  /\ (dict_find data (L "property_type") = None -> lb_property_type l = VNone)
  /\ (dict_find data (L "timestamp") = None -> lb_timestamp l = VNone).
Proof.
  unfold _parse_listing. intros H.
  apply bind_ok in H as (image & Himg & H).
  apply bind_ok in H as (id1 & _ & H).
  apply bind_ok in H as (id2 & _ & H).
  inversion H; subst l; clear H.
  cbn [lb_heading lb_location lb_flags lb_labels lb_image lb_price
       lb_price_total lb_price_suggestion lb_area lb_bedrooms
       lb_property_type lb_timestamp].
  unfold dict_get, dict_get_or.
  repeat split; intros E;
    try (unfold L in E; cbn [list_ascii_of_string] in E; now rewrite E).
  unfold dict_in in Himg. rewrite E in Himg. now inversion Himg.
Qed.

Lemma parse_listing_defaults_witness :
  exists l,
    _parse_listing [(L "id", VStr (L "123"))] PLOTS = Ok l
    /\ lb_heading l = VStr [] /\ lb_flags l = VList [] /\ lb_image l = None
    /\ lb_price l = VNone.
Proof.
  destruct (_parse_listing [(L "id", VStr (L "123"))] PLOTS) as [l|e] eqn:E;
    [|vm_compute in E; discriminate E].
  exists l. split; [reflexivity|].
  destruct (parse_listing_defaults _ _ _ E)
    as (H1 & _ & H3 & _ & H5 & H6 & _).
  repeat split; [apply H1 | apply H3 | apply H5 | apply H6]; reflexivity.
Defined.

(* ================================================================== *)
(** * The second count pattern *)
(* ================================================================== *)

Lemma letter_not_digit_nor_space c :
  (lower c = "t" \/ lower c = "b" \/ lower c = "l")%char ->
  isdigit c = false /\ isspace c = false.
Proof.
  ascii_cases c; vm_compute; intuition congruence.
Qed.

Lemma space_not_digit c : isspace c = true -> isdigit c = false.
Proof. ascii_cases c; vm_compute; intuition congruence. Qed.

Lemma lit_ci_app l w post :
  map lower l = map lower w -> lit true l (w ++ post) = Some post.
Proof.
  revert w. induction l as [|a l IH]; intros [|b w] H; simpl in H;
    try discriminate; [reflexivity|].
  inversion H. cbn [lit app].
  replace (Ascii.eqb (lower a) (lower b)) with true
    by (symmetry; now apply Ascii.eqb_eq).
  now apply IH.
Qed.

(** A unit word in any letter case starts with a letter, and the second
    count pattern takes it. *)
Lemma unit_word_alt w post g :
  In (map lower w) unit_words ->
  stops Digit (w ++ post) = true /\ stops Space (w ++ post) = true
  /\ run (Alt (LitI (L "treff"))
            (Alt (LitI (L "boliger")) (LitI (L "leieobjekter"))))
       (w ++ post) g (fun s' g' => Some (s', g'))
     = Some (post, g).
Proof.
  intros [H|[H|[H|[]]]]; destruct w as [|c w]; try discriminate H;
    assert (Hc : isdigit c = false /\ isspace c = false)
      by (apply letter_not_digit_nor_space; inversion H; auto);
    destruct Hc as [Hd Hs];
    (split; [cbn [stops app mem]; now rewrite Hd|]);
    (split; [cbn [stops app mem]; now rewrite Hs|]);
    assert (E := f_equal (@hd_error ascii) H);
    cbn [hd_error map L list_ascii_of_string] in E;
    injection E as E;
    cbn [run].
  - rewrite (lit_ci_app (L "treff") (c :: w) post) by exact H. reflexivity.
  - replace (lit true (L "treff") ((c :: w) ++ post)) with (@None str)
      by (cbn [lit L list_ascii_of_string app]; now rewrite <- E).
    rewrite (lit_ci_app (L "boliger") (c :: w) post) by exact H. reflexivity.
  - replace (lit true (L "treff") ((c :: w) ++ post)) with (@None str)
      by (cbn [lit L list_ascii_of_string app]; now rewrite <- E).
    replace (lit true (L "boliger") ((c :: w) ++ post)) with (@None str)
      by (cbn [lit L list_ascii_of_string app]; now rewrite <- E).
    rewrite (lit_ci_app (L "leieobjekter") (c :: w) post) by exact H.
    reflexivity.
Qed.

Lemma forallb_mem_digit t :
  forallb isdigit t = true -> forallb (mem Digit) t = true.
Proof. auto. Qed.

Lemma match_at_count_pattern_alt ds sp w post :
  ds <> [] -> forallb isdigit ds = true -> forallb isspace sp = true ->
  In (map lower w) unit_words ->
  match_at count_pattern_alt (ds ++ sp ++ w ++ post)
  = Some (post, [(1%nat, ds)]).
Proof.
  intros Hne Hds Hsp Hw.
  destruct ds as [|d ds]; [congruence|].
  cbn [forallb] in Hds. apply andb_true_iff in Hds as [Hd Hds].
  destruct (unit_word_alt w post [(1%nat, d :: ds)] Hw) as (S1 & S2 & R).
  assert (S3 : stops Digit (sp ++ w ++ post) = true).
  { destruct sp as [|c sp]; [exact S1|].
    cbn [forallb] in Hsp. apply andb_true_iff in Hsp as [Hc _].
    cbn [stops app mem]. now rewrite (space_not_digit _ Hc). }
  unfold match_at, count_pattern_alt. cbn [run app plus mem]. rewrite Hd.
  apply star_greedy; [exact Hds | exact S3 |].
  change (d :: ds ++ sp ++ w ++ post) with ((d :: ds) ++ sp ++ w ++ post).
  rewrite firstn_consumed.
  apply star_greedy; [exact Hsp | exact S2 | exact R].
Qed.

Lemma match_at_count_pattern_alt_no_digit c s :
  isdigit c = false -> match_at count_pattern_alt (c :: s) = None.
Proof.
  intros H. unfold match_at, count_pattern_alt. cbn [run plus mem].
  now rewrite H.
Qed.

Lemma search_from_alt_skip pre x : forall pos,
  x <> [] ->
  forallb (fun c => negb (isdigit c)) pre = true ->
  search_from count_pattern_alt (pre ++ x) pos
  = search_from count_pattern_alt x (pos + len pre).
Proof.
  induction pre as [|c pre IH]; intros pos Hx H.
  - cbn [app]. unfold len. simpl. now rewrite Nat.add_0_r.
  - cbn [forallb] in H. apply andb_true_iff in H as [Hc H].
    apply negb_true_iff in Hc.
    change ((c :: pre) ++ x) with (c :: pre ++ x). cbn [search_from].
    rewrite match_at_count_pattern_alt_no_digit by exact Hc.
    rewrite IH by assumption.
    replace (pos + len (c :: pre))%nat with (S pos + len pre)%nat
      by (unfold len; simpl; lia).
    reflexivity.
Qed.

Lemma search_from_hit r s pos rest g :
  match_at r s = Some (rest, g) ->
  search_from r s pos = Some (mk_match pos s rest g).
Proof. destruct s; cbn [search_from]; now intros ->. Qed.

(** X22.  The second count pattern.  In a page without the Du finner
    pattern whose first digits are a number followed, after any white
    space, by treff, boliger or leieobjekter in any letter case, the outcome
    is that of int() on that number: the number itself when it has at most
    4300 digits, and a ValueError when it has more. *)
Theorem extract_total_count_unit_word pre ds sp w post :
  forallb (fun c => negb (isdigit c)) pre = true ->
  ds <> [] -> forallb isdigit ds = true ->
  forallb isspace sp = true ->
  In (map lower w) unit_words ->
  Re.search count_pattern (pre ++ ds ++ sp ++ w ++ post) = None ->
  let html := pre ++ ds ++ sp ++ w ++ post in
  _extract_total_count html = int ds
  /\ (Z.of_nat (len ds) <= int_max_str_digits ->
      exists z, _extract_total_count html = Ok z /\ 0 <= z)
  /\ (int_max_str_digits < Z.of_nat (len ds) ->
      _extract_total_count html = Raise ValueError).
Proof.
  intros Hpre Hne Hds Hsp Hw Hno html.
  assert (E : _extract_total_count html = int ds).
  { unfold html, _extract_total_count. rewrite Hno. unfold Re.search.
    rewrite search_from_alt_skip;
      [ | destruct ds; [congruence|discriminate] | exact Hpre].
    rewrite (search_from_hit _ _ _ _ _
               (match_at_count_pattern_alt ds sp w post Hne Hds Hsp Hw)).
    unfold group, mk_match. cbn [m_groups lookup Nat.eqb]. reflexivity. }
  split; [exact E|]. rewrite E. split.
  - intros Hlen. now apply int_of_digits.
  - intros Hlen. now apply int_of_long_digits.
Qed.

Lemma extract_total_count_unit_word_witness :
  forallb (fun c => negb (isdigit c)) (L "<b>") = true
  /\ Re.search count_pattern (L "<b>" ++ L "340" ++ L " " ++ L "Boliger" ++ L "</b>")
     = None
  /\ Z.of_nat (len (L "340")) <= int_max_str_digits
  /\ _extract_total_count
       (L "<b>" ++ L "340" ++ L " " ++ L "Boliger" ++ L "</b>") = int (L "340")
  /\ int (L "340") = Ok 340.
Proof.
  split; [reflexivity|]. split; [reflexivity|].
  split; [vm_compute; discriminate|]. split; [|reflexivity].
  refine (proj1 (extract_total_count_unit_word (L "<b>") (L "340") (L " ")
                   (L "Boliger") (L "</b>") _ _ _ _ _ _));
    first [reflexivity | discriminate | right; left; reflexivity].
Defined.
